(** * A shallow embedding of the NEO database, filters and limit
    (models.py, database.py, filters.py, write.py). *)

From Stdlib Require Import QArith.
From Stdlib Require Import Ascii String.
From stdpp Require Import base list gmap strings.
From Stdlib Require Import Sorted.

(* ------------------------------------------------------------------ *)
(** ** Python values used by the filters *)

(** A Python [float]: a finite value or the [float("nan")] sentinel. *)
Inductive pyfloat :=
| Fin (q : Q)
| NaN.

(** A [datetime.date] as (year, month, day). *)
Record date := mkDate { year : Z; month : Z; day : Z }.

(** A [datetime.datetime] at minute precision, as parsed by [cd_to_datetime]. *)
Record datetime := mkDatetime { dt_date : date; hour : Z; minute : Z }.

(** The dynamically typed values passed to and compared by the filters. *)
Inductive value :=
| VFloat (x : pyfloat)
| VBool (b : bool)
| VDate (d : date)
| VNone.

(** Python exceptions raised by the modelled code. *)
Inductive exn :=
| AttributeError
| TypeError
| ValueError
| UnsupportedCriterionError.

Inductive result (A : Type) :=
| Ok (a : A)
| Err (e : exn).
Arguments Ok {A} a.
Arguments Err {A} e.

(** Truthiness of a value in an [if x:] test. Dates are always truthy;
    a float is falsy exactly when it is zero ([nan] is truthy). *)
Definition truthy (v : value) : bool :=
  match v with
  | VFloat (Fin q) => negb (Qeq_bool q 0)
  | VFloat NaN => true
  | VBool b => b
  | VDate _ => true
  | VNone => false
  end.

(** [bool] is a subclass of [int] in Python: it compares as 0 or 1. *)
Definition as_number (v : value) : option pyfloat :=
  match v with
  | VFloat x => Some x
  | VBool b => Some (Fin (if b then 1 else 0))
  | _ => None
  end.

Definition float_eq (x y : pyfloat) : bool :=
  match x, y with Fin a, Fin b => Qeq_bool a b | _, _ => false end.

Definition float_le (x y : pyfloat) : bool :=
  match x, y with Fin a, Fin b => Qle_bool a b | _, _ => false end.

Definition date_le (d e : date) : bool :=
  (year d <? year e)%Z
  || ((year d =? year e)%Z
      && ((month d <? month e)%Z
          || ((month d =? month e)%Z && (day d <=? day e)%Z))).

Definition date_eq (d e : date) : bool :=
  (year d =? year e)%Z && (month d =? month e)%Z && (day d =? day e)%Z.

(** The comparators of the [operator] module used by [create_filters]. *)
Inductive comparator := op_eq | op_le | op_ge.

(** [operator.eq], [operator.le] and [operator.ge] on Python values:
    [==] between unrelated types is [False]; [<=] between unrelated types
    raises [TypeError]. *)
Definition apply_op (op : comparator) (a b : value) : result bool :=
  match op with
  | op_eq =>
      match a, b with
      | VDate d, VDate e => Ok (date_eq d e)
      | VNone, VNone => Ok true
      | _, _ =>
          match as_number a, as_number b with
          | Some x, Some y => Ok (float_eq x y)
          | _, _ => Ok false
          end
      end
  | op_le | op_ge =>
      let '(l, r) := match op with op_ge => (b, a) | _ => (a, b) end in
      match l, r with
      | VDate d, VDate e => Ok (date_le d e)
      | _, _ =>
          match as_number l, as_number r with
          | Some x, Some y => Ok (float_le x y)
          | _, _ => Err TypeError
          end
      end
  end.

(* ------------------------------------------------------------------ *)
(** ** Entities (models.py) *)

(** Object identity: an NEO is referred to by its position in the
    database's [_neos] list, an approach by its position in [_approaches]. *)
Module NearEarthObject.
Record t := mk {
  designation : string;
  name : option string;
  diameter : pyfloat;
  hazardous : bool;
  approaches : list nat
}.
End NearEarthObject.

Module CloseApproach.
Record t := mk {
  designation : string;
  time : datetime;
  distance : pyfloat;
  velocity : pyfloat;
  neo : option nat
}.
End CloseApproach.

Abbreviation NEO := NearEarthObject.t.
Abbreviation CA := CloseApproach.t.

(** The object store of an [NEODatabase]: [self._neos] and [self._approaches]. *)
Record DB := mkDB { _neos : list NEO; _approaches : list CA }.

(* ------------------------------------------------------------------ *)
(** ** A state and exception monad over the store *)

Definition M (A : Type) := DB -> result A * DB.

Definition ret {A} (a : A) : M A := fun s => (Ok a, s).
Definition raise {A} (e : exn) : M A := fun s => (Err e, s).
Definition bind {A B} (m : M A) (k : A -> M B) : M B :=
  fun s => match m s with
           | (Ok a, s') => k a s'
           | (Err e, s') => (Err e, s')
           end.
Definition gets {A} (f : DB -> A) : M A := fun s => (Ok (f s), s).
Definition modify (f : DB -> DB) : M unit := fun s => (Ok tt, f s).

Notation "x <- m ;; k" := (bind m (fun x => k))
  (at level 62, m at next level, right associativity).
Notation "m ;;; k" := (bind m (fun _ => k))
  (at level 62, right associativity).

(* ------------------------------------------------------------------ *)
(** ** Filters (filters.py) *)

(** The classes of the filter hierarchy: the base class and its five
    concrete subclasses, which differ only in their [get] method. *)
Inductive filter_class :=
| AttributeFilter
| DistanceFilter
| DiameterFilter
| VelocityFilter
| HazardousFilter
| DateFilter.

(** An instance: its class, [self.op] and [self.value]. *)
Record filter := mkFilter { cls : filter_class; op : comparator; fvalue : value }.

(** [approach.neo.<attr>]: reading an attribute of [None] raises
    [AttributeError]. *)
Definition neo_attr (f : NEO -> value) (approach : CA) : M value :=
  match CloseApproach.neo approach with
  | None => raise AttributeError
  | Some j =>
      n <- gets (fun s => _neos s !! j);;
      match n with
      | Some n => ret (f n)
      | None => raise AttributeError
      end
  end.

(** The classmethod [get] of each class. *)
Definition get (c : filter_class) (approach : CA) : M value :=
  match c with
  | AttributeFilter => raise UnsupportedCriterionError
  | DistanceFilter => ret (VFloat (CloseApproach.distance approach))
  | DiameterFilter => neo_attr (fun n => VFloat (NearEarthObject.diameter n)) approach
  | VelocityFilter => ret (VFloat (CloseApproach.velocity approach))
  | HazardousFilter => neo_attr (fun n => VBool (NearEarthObject.hazardous n)) approach
  | DateFilter => ret (VDate (dt_date (CloseApproach.time approach)))
  end.

(** [AttributeFilter.__call__]: [self.op(self.get(approach), self.value)]. *)
Definition call (f : filter) (approach : CA) : M bool :=
  v <- get (cls f) approach;;
  match apply_op (op f) v (fvalue f) with
  | Ok b => ret b
  | Err e => raise e
  end.

(** The keyword arguments of [create_filters]; each defaults to [None]. *)
Module Criteria.
Record t := mk {
  date : value;
  start_date : value;
  end_date : value;
  distance_min : value;
  distance_max : value;
  velocity_min : value;
  velocity_max : value;
  diameter_min : value;
  diameter_max : value;
  hazardous : value
}.
Definition none : t := mk VNone VNone VNone VNone VNone VNone VNone VNone VNone VNone.
End Criteria.

(** [if x: specified_filters.append(F(op, x))] *)
Definition append_if (test : bool) (f : filter) (acc : list filter) : list filter :=
  if test then acc ++ [f] else acc.

Definition is_not_None (v : value) : bool :=
  match v with VNone => false | _ => true end.

Definition create_filters (c : Criteria.t) : list filter :=
  let specified_filters : list filter := [] in
  let specified_filters := append_if (truthy (Criteria.date c))
        (mkFilter DateFilter op_eq (Criteria.date c)) specified_filters in
  let specified_filters := append_if (truthy (Criteria.start_date c))
        (mkFilter DateFilter op_ge (Criteria.start_date c)) specified_filters in
  let specified_filters := append_if (truthy (Criteria.end_date c))
        (mkFilter DateFilter op_le (Criteria.end_date c)) specified_filters in
  let specified_filters := append_if (truthy (Criteria.velocity_min c))
        (mkFilter VelocityFilter op_ge (Criteria.velocity_min c)) specified_filters in
  let specified_filters := append_if (truthy (Criteria.velocity_max c))
        (mkFilter VelocityFilter op_le (Criteria.velocity_max c)) specified_filters in
  let specified_filters := append_if (truthy (Criteria.distance_min c))
        (mkFilter DistanceFilter op_ge (Criteria.distance_min c)) specified_filters in
  let specified_filters := append_if (truthy (Criteria.distance_max c))
        (mkFilter DistanceFilter op_le (Criteria.distance_max c)) specified_filters in
  let specified_filters := append_if (is_not_None (Criteria.hazardous c))
        (mkFilter HazardousFilter op_eq (Criteria.hazardous c)) specified_filters in
  let specified_filters := append_if (truthy (Criteria.diameter_min c))
        (mkFilter DiameterFilter op_ge (Criteria.diameter_min c)) specified_filters in
  let specified_filters := append_if (truthy (Criteria.diameter_max c))
        (mkFilter DiameterFilter op_le (Criteria.diameter_max c)) specified_filters in
  specified_filters.

(** [limit(iterator, n)] with the iterator consumed as a finite list.
    [itertools.islice] raises [ValueError] on a negative stop. *)
Definition limit {A} (iterator : list A) (n : option Z) : result (list A) :=
  match n with
  | None => Ok iterator
  | Some z =>
      if (z =? 0)%Z then Ok iterator
      else if (z <? 0)%Z then Err ValueError
      else Ok (firstn (Z.to_nat z) iterator)
  end.

(* ------------------------------------------------------------------ *)
(** ** ASCII case mapping ([str.upper], [str.capitalize]) *)

Definition upper_char (c : ascii) : ascii :=
  let n := Ascii.nat_of_ascii c in
  if (97 <=? n) && (n <=? 122) then Ascii.ascii_of_nat (n - 32) else c.

Definition lower_char (c : ascii) : ascii :=
  let n := Ascii.nat_of_ascii c in
  if (65 <=? n) && (n <=? 90) then Ascii.ascii_of_nat (n + 32) else c.

Fixpoint upper (s : string) : string :=
  match s with
  | EmptyString => EmptyString
  | String c r => String (upper_char c) (upper r)
  end.

Fixpoint lower (s : string) : string :=
  match s with
  | EmptyString => EmptyString
  | String c r => String (lower_char c) (lower r)
  end.

(** [str.capitalize]: the first character upper-cased, the rest lower-cased. *)
Definition capitalize (s : string) : string :=
  match s with
  | EmptyString => EmptyString
  | String c r => String (upper_char c) (lower r)
  end.

(* ------------------------------------------------------------------ *)
(** ** The database (database.py) *)

Module NEODatabase.

(** [for index, neo in enumerate(self._neos):
       designations_with_indices[neo.designation] = index] *)
Fixpoint index_loop (index : nat) (neos : list NEO) (m : gmap string nat)
  : gmap string nat :=
  match neos with
  | [] => m
  | neo :: rest =>
      index_loop (S index) rest (<[NearEarthObject.designation neo := index]> m)
  end.

Definition designations_with_indices (neos : list NEO) : gmap string nat :=
  index_loop 0 neos ∅.

Definition set_neo (j : nat) (a : CA) : CA :=
  CloseApproach.mk (CloseApproach.designation a) (CloseApproach.time a)
    (CloseApproach.distance a) (CloseApproach.velocity a) (Some j).

Definition append_approach (k : nat) (n : NEO) : NEO :=
  NearEarthObject.mk (NearEarthObject.designation n) (NearEarthObject.name n)
    (NearEarthObject.diameter n) (NearEarthObject.hazardous n)
    (NearEarthObject.approaches n ++ [k]).

(** [approach.neo = self._neos[j]], where [approach] is object [k]. *)
Definition assign_neo (k j : nat) : M unit :=
  modify (fun s => mkDB (_neos s) (alter (set_neo j) k (_approaches s))).

(** [self._neos[j].approaches.append(approach)] *)
Definition append_to_neo (j k : nat) : M unit :=
  modify (fun s => mkDB (alter (append_approach k) j (_neos s)) (_approaches s)).

(** [for approach in approaches: if approach.designation in ...: ...],
    [k] being the position of [approach]. *)
Fixpoint link_loop (m : gmap string nat) (k : nat) (approaches : list CA) : M unit :=
  match approaches with
  | [] => ret tt
  | approach :: rest =>
      match m !! CloseApproach.designation approach with
      | Some j => assign_neo k j;;; append_to_neo j k
      | None => ret tt
      end;;;
      link_loop m (S k) rest
  end.

(** [NEODatabase(neos, approaches)]: the store after [__init__]. *)
Definition init (neos : list NEO) (approaches : list CA) : DB :=
  snd (link_loop (designations_with_indices neos) 0 approaches (mkDB neos approaches)).

Fixpoint find_designation (d : string) (neos : list NEO) : option NEO :=
  match neos with
  | [] => None
  | neo :: rest =>
      if String.eqb (NearEarthObject.designation neo) d then Some neo
      else find_designation d rest
  end.

Definition get_neo_by_designation (s : DB) (designation : string) : option NEO :=
  find_designation (upper designation) (_neos s).

(** [neo.name == name.capitalize()]: [None] equals no string. *)
Definition name_eq (n : option string) (t : string) : bool :=
  match n with Some n => String.eqb n t | None => false end.

Fixpoint find_name (t : string) (neos : list NEO) : option NEO :=
  match neos with
  | [] => None
  | neo :: rest =>
      if name_eq (NearEarthObject.name neo) t then Some neo
      else find_name t rest
  end.

Definition get_neo_by_name (s : DB) (name : string) : option NEO :=
  find_name (capitalize name) (_neos s).

(** [match_filter = True; for filter in filters: if filter(approach):
    continue else: match_filter = False; return match_filter] *)
Fixpoint check_loop (approach : CA) (match_filter : bool) (filters : list filter)
  : M bool :=
  match filters with
  | [] => ret match_filter
  | f :: rest =>
      b <- call f approach;;
      if b then check_loop approach match_filter rest
      else check_loop approach false rest
  end.

Definition check_approach_against_filters (approach : CA) (filters : list filter)
  : M bool :=
  check_loop approach true filters.

(** The generator body over [self._approaches], consumed to the end. *)
Fixpoint query_loop (filters : list filter) (approaches : list CA) : M (list CA) :=
  match approaches with
  | [] => ret []
  | approach :: rest =>
      ok <- check_approach_against_filters approach filters;;
      ys <- query_loop filters rest;;
      ret (if ok then approach :: ys else ys)
  end.

(** [list(self.query(filters))] *)
Definition query (filters : list filter) : M (list CA) :=
  match filters with
  | [] => gets _approaches
  | _ :: _ => approaches <- gets _approaches;; query_loop filters approaches
  end.

End NEODatabase.

(* ------------------------------------------------------------------ *)
(** ** Constructors and serialization (models.py) *)

(** [x or y] on a float argument: [x] when it is truthy, else [y]. *)
Definition float_or (x : pyfloat) (y : pyfloat) : pyfloat :=
  if truthy (VFloat x) then x else y.

(** [NearEarthObject(designation, name, diameter, hazardous)], [diameter]
    being a float or [None]: [self.diameter = diameter or float("nan")],
    [self.approaches = []]. *)
Definition NearEarthObject_init (designation : string) (name : option string)
    (diameter : option pyfloat) (hazardous : bool) : NEO :=
  NearEarthObject.mk designation name
    (match diameter with Some d => float_or d NaN | None => NaN end)
    hazardous [].

(** [NearEarthObject.fullname]: [if self.name:] is false for [None] and
    for the empty string. *)
Definition fullname (n : NEO) : string :=
  match NearEarthObject.name n with
  | Some (String c r) =>
      (NearEarthObject.designation n ++ " " ++ String c r)%string
  | _ => NearEarthObject.designation n
  end.

(** A JSON-serializable Python value, and a [dict] as a list of bindings
    where a later binding of a key overrides an earlier one
    ([{**a, **b}] is [a ++ b], [d[k] = v] adds a binding). *)
#[warnings="-register-all"]
Inductive json :=
| JNull
| JStr (s : string)
| JFloat (x : pyfloat)
| JBool (b : bool)
| JObj (kvs : list (string * json)).

Abbreviation dict := (list (string * json)).

(** [d.get(k, default)]: the value of the last binding of [k], else [default]. *)
Definition dict_get (k : string) (default : json) (d : dict) : json :=
  match List.find (fun kv => String.eqb k (fst kv)) (rev d) with
  | Some (_, v) => v
  | None => default
  end.

Definition NEO_serialize (n : NEO) : dict :=
  [("designation", JStr (NearEarthObject.designation n));
   ("name", match NearEarthObject.name n with Some t => JStr t | None => JNull end);
   ("diameter_km", JFloat (NearEarthObject.diameter n));
   ("potentially_hazardous", JBool (NearEarthObject.hazardous n))].

Section Helpers.
(** [cd_to_datetime], [datetime_to_str] (helpers.py) and the builtin
    [float] on strings are not part of the modelled sources: they are
    parameters of the definitions below. *)
Variable cd_to_datetime : string -> datetime.
Variable datetime_to_str : datetime -> string.
Variable parse_float : string -> result pyfloat.

(** [CloseApproach(designation, time, velocity, distance, **kwargs)]:
    zero distance or velocity becomes [nan]; [neo] is [kwargs.get('neo')]. *)
Definition CloseApproach_init (designation time : string) (velocity distance : pyfloat)
    (neo : option nat) : CA :=
  CloseApproach.mk designation (cd_to_datetime time)
    (if truthy (VFloat distance) then distance else NaN)
    (if truthy (VFloat velocity) then velocity else NaN)
    neo.

Definition CA_serialize (a : CA) : dict :=
  [("velocity_km_s", JFloat (CloseApproach.velocity a));
   ("datetime_utc", JStr (datetime_to_str (CloseApproach.time a)));
   ("distance_au", JFloat (CloseApproach.distance a))].

(** The builtin [float(x)]. *)
Definition py_float (v : json) : result pyfloat :=
  match v with
  | JFloat x => Ok x
  | JBool b => Ok (Fin (if b then 1 else 0))
  | JStr t => parse_float t
  | JNull | JObj _ => Err TypeError
  end.

(** [result.neo.serialize()] *)
Definition neo_serialize_of (result : CA) : M dict :=
  match CloseApproach.neo result with
  | None => raise AttributeError
  | Some j =>
      n <- gets (fun s => _neos s !! j);;
      match n with
      | Some n => ret (NEO_serialize n)
      | None => raise AttributeError
      end
  end.

Definition liftR {A} (r : result A) : M A :=
  match r with Ok a => ret a | Err e => raise e end.

(** The body of the loop of [write_to_json] for one [result]. *)
Definition json_row (result : CA) : M json :=
  neo_d <- neo_serialize_of result;;
  let content := CA_serialize result ++ neo_d in
  let content := content ++ [("name", dict_get "name" (JStr "") content)] in
  let content := content ++ [("potentially_hazardous",
                              dict_get "potentially_hazardous" (JBool false) content)] in
  velocity <- liftR (py_float (dict_get "velocity_km_s" JNull content));;
  diameter <- liftR (py_float (dict_get "diameter_km" JNull content));;
  ret (JObj [("datetime_utc", dict_get "datetime_utc" JNull content);
             ("distance_au", dict_get "distance_au" JNull content);
             ("velocity_km_s", JFloat velocity);
             ("neo", JObj [("designation", dict_get "designation" JNull content);
                           ("name", dict_get "name" JNull content);
                           ("diameter_km", JFloat diameter);
                           ("potentially_hazardous",
                            dict_get "potentially_hazardous" JNull content)])]).

(** [close_approach_collection] as [write_to_json] builds it before
    [json.dump] writes it out. *)
Fixpoint write_to_json_collection (results : list CA) : M (list json) :=
  match results with
  | [] => ret []
  | result :: rest =>
      row <- json_row result;;
      rows <- write_to_json_collection rest;;
      ret (row :: rows)
  end.
End Helpers.

(* ------------------------------------------------------------------ *)
(** ** Sample data: the end-to-end example *)

Definition eros : NEO :=
  NearEarthObject.mk "433" (Some "Eros") (Fin (1684 # 100)) false [].

Definition eros_1900 : CA :=
  CloseApproach.mk "433" (mkDatetime (mkDate 1900 1 1) 0 0)
    (Fin (32 # 100)) (Fin (55 # 10)) None.

Definition sample_db : DB := NEODatabase.init [eros] [eros_1900].

Definition dist_le (x : Q) : filter := mkFilter DistanceFilter op_le (VFloat (Fin x)).

Example sample_linked :
  option_map (fun n => length (NearEarthObject.approaches n))
    (NEODatabase.get_neo_by_designation sample_db "433") = Some 1.
Proof. reflexivity. Qed.

Example sample_query_hit :
  fst (NEODatabase.query [dist_le (5 # 10)] sample_db)
  = Ok (_approaches sample_db).
Proof. reflexivity. Qed.

Example sample_query_miss :
  fst (NEODatabase.query [dist_le (1 # 10)] sample_db) = Ok [].
Proof. reflexivity. Qed.

(* ------------------------------------------------------------------ *)
(** ** Read-only computations *)

(** A computation that leaves the store as it found it. *)
Definition read_only {A} (m : M A) : Prop := forall s, snd (m s) = s.

Create HintDb readonly.

Lemma ro_ret {A} (a : A) : read_only (ret a).
Proof. intros s. reflexivity. Qed.

Lemma ro_raise {A} (e : exn) : read_only (@raise A e).
Proof. intros s. reflexivity. Qed.

Lemma ro_gets {A} (f : DB -> A) : read_only (gets f).
Proof. intros s. reflexivity. Qed.

Lemma ro_bind {A B} (m : M A) (k : A -> M B) :
  read_only m -> (forall a, read_only (k a)) -> read_only (bind m k).
Proof.
  intros Hm Hk s. unfold bind.
  specialize (Hm s). destruct (m s) as [[a|e] s'] eqn:E; simpl in *; subst.
  - apply Hk.
  - reflexivity.
Qed.

#[local] Hint Resolve ro_ret ro_raise ro_gets ro_bind : readonly.

Lemma ro_neo_attr f a : read_only (neo_attr f a).
Proof.
  unfold neo_attr. destruct (CloseApproach.neo a); auto with readonly.
  apply ro_bind; [apply ro_gets|]. intros [x|]; auto with readonly.
Qed.

Lemma ro_get c a : read_only (get c a).
Proof. destruct c; simpl; auto using ro_neo_attr with readonly. Qed.

Lemma ro_call f a : read_only (call f a).
Proof.
  unfold call. apply ro_bind; [apply ro_get|].
  intros v. destruct (apply_op _ _ _); auto with readonly.
Qed.

#[local] Hint Resolve ro_call : readonly.

Lemma ro_check_loop a mf fs : read_only (NEODatabase.check_loop a mf fs).
Proof.
  revert mf. induction fs as [|f fs IH]; intros mf; simpl; auto with readonly.
  apply ro_bind; [apply ro_call|]. intros [|]; apply IH.
Qed.

#[local] Hint Resolve ro_check_loop : readonly.

Lemma ro_query_loop fs l : read_only (NEODatabase.query_loop fs l).
Proof.
  induction l as [|a l IH]; simpl; auto with readonly.
  apply ro_bind; [apply ro_check_loop|]. intros ok.
  apply ro_bind; auto with readonly.
Qed.

Lemma ro_query fs : read_only (NEODatabase.query fs).
Proof.
  destruct fs; simpl; auto with readonly.
  apply ro_bind; [apply ro_gets|]. intros; apply ro_query_loop.
Qed.

(* ------------------------------------------------------------------ *)
(** ** Query results *)

(** The boolean a filter returns on an approach in store [s], [false]
    when it raises. *)
Definition holds (s : DB) (f : filter) (a : CA) : bool :=
  match fst (call f a s) with Ok true => true | _ => false end.

Lemma check_loop_ok s a mf fs :
  (forall f, In f fs -> exists b, fst (call f a s) = Ok b) ->
  fst (NEODatabase.check_loop a mf fs s) = Ok (mf && forallb (fun f => holds s f a) fs).
Proof.
  revert mf. induction fs as [|f fs IH]; intros mf H; simpl.
  - by rewrite andb_true_r.
  - unfold bind. pose proof (ro_call f a s) as Hs.
    destruct (H f (or_introl eq_refl)) as [b Hb].
    unfold holds. rewrite Hb.
    destruct (call f a s) as [r s'] eqn:E. simpl in Hs, Hb. subst r s'.
    assert (H' : forall f', In f' fs -> exists b, fst (call f' a s) = Ok b)
      by (intros; apply H; right; assumption).
    destruct b.
    + rewrite IH by exact H'. reflexivity.
    + rewrite IH by exact H'. by rewrite andb_false_r.
Qed.

Lemma query_loop_ok s fs l :
  (forall f a, In f fs -> In a l -> exists b, fst (call f a s) = Ok b) ->
  fst (NEODatabase.query_loop fs l s)
  = Ok (List.filter (fun a => forallb (fun f => holds s f a) fs) l).
Proof.
  induction l as [|a l IH]; intros H; simpl; [reflexivity|].
  unfold bind, NEODatabase.check_approach_against_filters.
  pose proof (ro_check_loop a true fs s) as Hs.
  pose proof (check_loop_ok s a true fs (fun f Hf => H f a Hf (or_introl eq_refl))) as Hc.
  destruct (NEODatabase.check_loop a true fs s) as [r s'] eqn:E.
  simpl in Hs, Hc. subst r s'.
  pose proof (ro_query_loop fs l s) as Hs'.
  assert (IH' := IH (fun f a' Hf Ha => H f a' Hf (or_intror Ha))).
  destruct (NEODatabase.query_loop fs l s) as [r s'] eqn:E'.
  simpl in Hs', IH'. subst r s'. simpl.
  destruct (forallb _ fs); reflexivity.
Qed.

(* ------------------------------------------------------------------ *)
(** ** Claims: query, filters, limit *)

(** C1. [query(F)], consumed to the end, yields the stored approaches, in
    their stored order, on which every filter of [F] returns [True]
    (whenever the filters return a boolean rather than raise); [query(())]
    yields every stored approach once, unfiltered. *)
Theorem query_conjunction :
  (forall s : DB, fst (NEODatabase.query [] s) = Ok (_approaches s)) /\
  (forall (s : DB) (filters : list filter),
     (forall f a, In f filters -> In a (_approaches s) ->
                  exists b, fst (call f a s) = Ok b) ->
     fst (NEODatabase.query filters s)
     = Ok (List.filter (fun a => forallb (fun f => holds s f a) filters)
             (_approaches s))).
Proof.
  split.
  - intros s. reflexivity.
  - intros s [|f fs] H; simpl.
    + f_equal. clear H. induction (_approaches s) as [|a l IH]; simpl; congruence.
    + unfold bind, gets. apply query_loop_ok. exact H.
Qed.

Lemma query_conjunction_witness :
  (forall f a, In f [dist_le (5 # 10)] -> In a (_approaches sample_db) ->
               exists b, fst (call f a sample_db) = Ok b) /\
  fst (NEODatabase.query [dist_le (5 # 10)] sample_db)
  = Ok (List.filter (fun a => forallb (fun f => holds sample_db f a) [dist_le (5 # 10)])
          (_approaches sample_db)).
Proof.
  assert (H : forall f a, In f [dist_le (5 # 10)] -> In a (_approaches sample_db) ->
                          exists b, fst (call f a sample_db) = Ok b).
  { intros f a Hf Ha. destruct Hf as [<-|[]].
    eexists. reflexivity. }
  split; [exact H|].
  apply (proj2 query_conjunction sample_db [dist_le (5 # 10)] H).
Defined.

(** C8. Running [query(F)] and consuming its whole stream, whether it
    ends normally or by an exception, leaves the store (every NEO and
    every approach, all their fields) unchanged. *)
Theorem query_preserves_store :
  forall (filters : list filter) (s : DB), snd (NEODatabase.query filters s) = s.
Proof. intros filters s. apply ro_query. Qed.

Lemma apply_op_err o x y e : apply_op o x y = Err e -> e = TypeError.
Proof.
  destruct o; simpl; repeat case_match; intros EE; inversion EE; reflexivity.
Qed.

Lemma get_unsupported c a s s' :
  get c a s = (Err UnsupportedCriterionError, s') -> c = AttributeFilter.
Proof.
  destruct c; simpl; unfold neo_attr, bind, gets, ret, raise;
    repeat case_match; intros EE; inversion EE; reflexivity.
Qed.

(** C9. The base class's [get] raises [UnsupportedCriterionError], so
    calling a base-class filter raises it, and a filter of any of the
    five concrete classes never raises it. *)
Theorem base_filter_unsupported :
  (forall (a : CA) (s : DB), get AttributeFilter a s = (Err UnsupportedCriterionError, s)) /\
  (forall (o : comparator) (v : value) (a : CA) (s : DB),
     fst (call (mkFilter AttributeFilter o v) a s) = Err UnsupportedCriterionError) /\
  (forall (f : filter) (a : CA) (s : DB),
     fst (call f a s) = Err UnsupportedCriterionError -> cls f = AttributeFilter).
Proof.
  split; [|split].
  - reflexivity.
  - reflexivity.
  - intros [c o v] a s H. unfold call, bind in H. simpl in *.
    destruct (get c a s) as [[x|e] s'] eqn:E; simpl in H.
    + destruct (apply_op o x v) eqn:A; simpl in H; [discriminate|].
      injection H as ->. apply apply_op_err in A. discriminate.
    + injection H as ->. by apply (get_unsupported c a s s').
Qed.

Lemma base_filter_unsupported_witness :
  fst (call (mkFilter AttributeFilter op_le (VFloat (Fin 1))) eros_1900 sample_db)
    = Err UnsupportedCriterionError /\
  cls (mkFilter AttributeFilter op_le (VFloat (Fin 1))) = AttributeFilter.
Proof.
  assert (H : fst (call (mkFilter AttributeFilter op_le (VFloat (Fin 1))) eros_1900 sample_db)
              = Err UnsupportedCriterionError) by reflexivity.
  split; [exact H|].
  apply (proj2 (proj2 base_filter_unsupported) _ eros_1900 sample_db H).
Defined.

(** C10. On an approach whose [neo] is [None], a [DiameterFilter] or a
    [HazardousFilter] raises [AttributeError] instead of returning a
    boolean. *)
Theorem orphan_neo_filters_raise :
  forall (a : CA) (s : DB) (o : comparator) (v : value),
    CloseApproach.neo a = None ->
    fst (call (mkFilter DiameterFilter o v) a s) = Err AttributeError /\
    fst (call (mkFilter HazardousFilter o v) a s) = Err AttributeError.
Proof.
  intros a s o v H. unfold call, bind; simpl. unfold neo_attr. rewrite H.
  split; reflexivity.
Qed.

Lemma orphan_neo_filters_raise_witness :
  CloseApproach.neo eros_1900 = None /\
  fst (call (mkFilter DiameterFilter op_ge (VFloat (Fin 1))) eros_1900 sample_db)
    = Err AttributeError /\
  fst (call (mkFilter HazardousFilter op_eq (VBool true)) eros_1900 sample_db)
    = Err AttributeError.
Proof.
  assert (H : CloseApproach.neo eros_1900 = None) by reflexivity.
  split; [exact H|]. split.
  - apply (orphan_neo_filters_raise eros_1900 sample_db op_ge (VFloat (Fin 1)) H).
  - apply (orphan_neo_filters_raise eros_1900 sample_db op_eq (VBool true) H).
Defined.

(** C5. [limit(seq, None)] and [limit(seq, 0)] return [seq] itself; for
    [n > 0], [limit(seq, n)] returns the first [min(n, len(seq))] items of
    [seq], in order. *)
Theorem limit_spec :
  (forall {A} (seq : list A), limit seq None = Ok seq /\ limit seq (Some 0%Z) = Ok seq) /\
  (forall {A} (seq : list A) (n : Z), (0 < n)%Z ->
     exists out rest, limit seq (Some n) = Ok out /\
       length out = Nat.min (Z.to_nat n) (length seq) /\ seq = out ++ rest).
Proof.
  split.
  - intros A seq. split; reflexivity.
  - intros A seq n Hn. unfold limit.
    destruct (Z.eqb_spec n 0); [lia|].
    destruct (Z.ltb_spec n 0); [lia|].
    exists (firstn (Z.to_nat n) seq), (skipn (Z.to_nat n) seq).
    split; [reflexivity|]. split.
    + apply length_firstn.
    + symmetry. apply firstn_skipn.
Qed.

Lemma limit_spec_witness :
  (0 < 2)%Z /\
  exists out rest, limit [1; 2; 3] (Some 2%Z) = Ok out /\
    length out = Nat.min (Z.to_nat 2) (length [1; 2; 3]) /\ [1; 2; 3] = out ++ rest.
Proof.
  assert (H : (0 < 2)%Z) by lia.
  split; [exact H|].
  apply (proj2 limit_spec nat [1; 2; 3] 2%Z H).
Defined.

(** C3 (code defect). With [distance_max=0.0], [create_filters] tests
    [if distance_max:], which is false for zero, and returns no filter,
    although a zero bound was supplied. *)
Theorem create_filters_drops_zero_bound :
  create_filters (Criteria.mk VNone VNone VNone VNone (VFloat (Fin 0))
                    VNone VNone VNone VNone VNone) = [] /\
  create_filters (Criteria.mk VNone VNone VNone VNone VNone
                    VNone VNone VNone VNone (VBool false))
    = [mkFilter HazardousFilter op_eq (VBool false)].
Proof. split; reflexivity. Qed.

(* ------------------------------------------------------------------ *)
(** ** Claims: lookups *)

Lemma find_first {A} (p : A -> bool) (l : list A) (x : A) :
  List.find p l = Some x <->
  exists i, l !! i = Some x /\ p x = true /\
            forall i' y, i' < i -> l !! i' = Some y -> p y = false.
Proof.
  induction l as [|a l IH]; simpl.
  - split; [discriminate|]. intros (i & Hi & _). by rewrite lookup_nil in Hi.
  - destruct (p a) eqn:Ha; split.
    + intros [= <-]. exists 0. split; [reflexivity|]. split; [exact Ha|]. lia.
    + intros ([|i] & Hi & Hx & Hb); simpl in Hi.
      * congruence.
      * rewrite (Hb 0 a) in Ha; [discriminate|lia|reflexivity].
    + intros Hf. apply IH in Hf as (i & Hi & Hx & Hb).
      exists (S i). split; [exact Hi|]. split; [exact Hx|].
      intros [|i'] y Hlt Hy; simpl in Hy.
      * congruence.
      * apply (Hb i'); [lia|exact Hy].
    + intros ([|i] & Hi & Hx & Hb); simpl in Hi.
      * congruence.
      * apply IH. exists i. split; [exact Hi|]. split; [exact Hx|].
        intros i' y Hlt Hy. apply (Hb (S i')); [lia|exact Hy].
Qed.

Lemma find_designation_find d ns :
  NEODatabase.find_designation d ns
  = List.find (fun n => String.eqb (NearEarthObject.designation n) d) ns.
Proof. induction ns as [|n ns IH]; simpl; [reflexivity|]. by rewrite IH. Qed.

Lemma find_name_find t ns :
  NEODatabase.find_name t ns
  = List.find (fun n => NEODatabase.name_eq (NearEarthObject.name n) t) ns.
Proof. induction ns as [|n ns IH]; simpl; [reflexivity|]. by rewrite IH. Qed.

Lemma NoDup_map_inj {A B} (f : A -> B) (l : list A) x y :
  NoDup (List.map f l) -> In x l -> In y l -> f x = f y -> x = y.
Proof.
  induction l as [|a l IH]; simpl; [tauto|].
  intros Hnd Hx Hy Hf. apply NoDup_cons in Hnd as [Hnin Hnd].
  destruct Hx as [<-|Hx], Hy as [<-|Hy]; try reflexivity.
  - exfalso. apply Hnin. rewrite Hf. apply list_elem_of_In. by apply in_map.
  - exfalso. apply Hnin. rewrite <- Hf. apply list_elem_of_In. by apply in_map.
  - by apply IH.
Qed.

(** C6. When designations are unique, [get_neo_by_designation(d)]
    returns the NEO whose designation equals [d.upper()], and [None]
    exactly when there is none. *)
Theorem get_neo_by_designation_spec :
  forall (s : DB) (d : string),
    NoDup (List.map NearEarthObject.designation (_neos s)) ->
    (forall n, NEODatabase.get_neo_by_designation s d = Some n <->
               In n (_neos s) /\ NearEarthObject.designation n = upper d) /\
    (NEODatabase.get_neo_by_designation s d = None <->
     forall n, In n (_neos s) -> NearEarthObject.designation n <> upper d).
Proof.
  intros s d Hnd. unfold NEODatabase.get_neo_by_designation.
  rewrite find_designation_find.
  set (p := fun n => String.eqb (NearEarthObject.designation n) (upper d)).
  assert (Hsome : forall n, List.find p (_neos s) = Some n ->
                  In n (_neos s) /\ NearEarthObject.designation n = upper d).
  { intros n Hf. apply find_some in Hf as [Hin Hp].
    split; [exact Hin|]. by apply String.eqb_eq. }
  assert (Hnone : List.find p (_neos s) = None ->
                  forall n, In n (_neos s) -> NearEarthObject.designation n <> upper d).
  { intros Hf n Hin Heq. pose proof (find_none p _ Hf n Hin) as Hp.
    unfold p in Hp. rewrite Heq, String.eqb_refl in Hp. discriminate. }
  split.
  - intros n. split; [apply Hsome|]. intros [Hin Heq].
    destruct (List.find p (_neos s)) as [n'|] eqn:Hf.
    + destruct (Hsome n' eq_refl) as [Hin' Heq'].
      f_equal. apply (NoDup_map_inj _ _ _ _ Hnd Hin' Hin). congruence.
    + exfalso. exact (Hnone eq_refl n Hin Heq).
  - split; [exact Hnone|]. intros Hall.
    destruct (List.find p (_neos s)) as [n'|] eqn:Hf; [|reflexivity].
    destruct (Hsome n' eq_refl) as [Hin' Heq']. exfalso. exact (Hall n' Hin' Heq').
Qed.

Lemma get_neo_by_designation_spec_witness :
  NoDup (List.map NearEarthObject.designation (_neos sample_db)) /\
  (forall n, NEODatabase.get_neo_by_designation sample_db "aBc" = Some n <->
             In n (_neos sample_db) /\ NearEarthObject.designation n = upper "aBc") /\
  (NEODatabase.get_neo_by_designation sample_db "aBc" = None <->
   forall n, In n (_neos sample_db) -> NearEarthObject.designation n <> upper "aBc").
Proof.
  assert (H : NoDup (List.map NearEarthObject.designation (_neos sample_db))).
  { change (NoDup ["433"%string]). apply NoDup_singleton. }
  split; [exact H|].
  apply (get_neo_by_designation_spec sample_db "aBc" H).
Defined.

(** The lookup key as the spec words it: the first letter upper-cased,
    the rest of the string unchanged (not the source's [capitalize]). *)
Definition spec_capitalize (s : string) : string :=
  match s with
  | EmptyString => EmptyString
  | String c r => String (upper_char c) r
  end.

Definition quixote : NEO :=
  NearEarthObject.mk "3552" (Some "Don Quixote") (Fin (19 # 1)) false [].

Definition quixote_db : DB := NEODatabase.init [eros; quixote] [].

(** C4, as stated, fails: the NEO named "Don Quixote" is not found by its
    exact name, since [capitalize] turns the key into "Don quixote". *)
Lemma get_neo_by_name_counterexample :
  NEODatabase.get_neo_by_name quixote_db "Don Quixote" = None /\
  NEODatabase.find_name (spec_capitalize "Don Quixote") (_neos quixote_db) = Some quixote.
Proof. split; reflexivity. Qed.

(** C4, amended. [get_neo_by_name(name)] returns the first NEO whose name
    equals [name.capitalize()], that is the first character upper-cased
    and every other character lower-cased, and [None] when no NEO has
    that name (an NEO without a name never matches). *)
Theorem get_neo_by_name_spec :
  (forall c r, capitalize (String c r) = String (upper_char c) (lower r)) /\
  forall (s : DB) (name : string),
    (forall n, NEODatabase.get_neo_by_name s name = Some n <->
       exists i, _neos s !! i = Some n /\
         NearEarthObject.name n = Some (capitalize name) /\
         forall i' n', i' < i -> _neos s !! i' = Some n' ->
                       NearEarthObject.name n' <> Some (capitalize name)) /\
    (NEODatabase.get_neo_by_name s name = None <->
       forall n, In n (_neos s) -> NearEarthObject.name n <> Some (capitalize name)).
Proof.
  split; [reflexivity|].
  intros s name. unfold NEODatabase.get_neo_by_name. rewrite find_name_find.
  set (t := capitalize name).
  assert (Hp : forall o, NEODatabase.name_eq o t = true <-> o = Some t).
  { intros [o|]; simpl; [rewrite String.eqb_eq|]; split; congruence. }
  split.
  - intros n. rewrite find_first. split.
    + intros (i & Hi & Hx & Hb). exists i. split; [exact Hi|].
      split; [by apply Hp|].
      intros i' n' Hlt Hn' Heq. apply Hp in Heq. rewrite (Hb i' n' Hlt Hn') in Heq.
      discriminate.
    + intros (i & Hi & Hx & Hb). exists i. split; [exact Hi|].
      split; [by apply Hp|].
      intros i' n' Hlt Hn'. apply not_true_is_false. intros Heq.
      apply Hp in Heq. exact (Hb i' n' Hlt Hn' Heq).
  - split.
    + intros Hf n Hin Heq. apply Hp in Heq.
      rewrite (find_none _ _ Hf n Hin) in Heq. discriminate.
    + intros Hall.
      destruct (List.find _ (_neos s)) as [n'|] eqn:Hf; [|reflexivity].
      apply find_some in Hf as [Hin Heq]. apply Hp in Heq.
      exfalso. exact (Hall n' Hin Heq).
Qed.

(* ------------------------------------------------------------------ *)
(** ** The designation index built by [__init__] *)

(** The position of the last NEO of [ns] with designation [d]. *)
Fixpoint last_index (d : string) (ns : list NEO) : option nat :=
  match ns with
  | [] => None
  | n :: rest =>
      match last_index d rest with
      | Some p => Some (S p)
      | None => if String.eqb (NearEarthObject.designation n) d then Some 0 else None
      end
  end.

Lemma index_loop_lookup i ns (m : gmap string nat) d :
  NEODatabase.index_loop i ns m !! d
  = match last_index d ns with Some p => Some (i + p) | None => m !! d end.
Proof.
  revert i m. induction ns as [|n ns IH]; intros i m; simpl; [reflexivity|].
  rewrite IH. destruct (last_index d ns) as [p|].
  - f_equal. lia.
  - destruct (String.eqb_spec (NearEarthObject.designation n) d) as [<-|Hne].
    + rewrite lookup_insert_eq. f_equal. lia.
    + by rewrite lookup_insert_ne.
Qed.

Lemma last_index_none d ns :
  last_index d ns = None ->
  forall p n, ns !! p = Some n -> NearEarthObject.designation n <> d.
Proof.
  induction ns as [|x ns IH]; intros Hl p n Hp; simpl in *.
  - by rewrite lookup_nil in Hp.
  - destruct (last_index d ns); [discriminate|].
    destruct p as [|p]; simpl in Hp.
    + injection Hp as ->. intros Hd. rewrite Hd, String.eqb_refl in Hl. discriminate.
    + exact (IH eq_refl p n Hp).
Qed.

Lemma last_index_some d ns p :
  last_index d ns = Some p ->
  exists n, ns !! p = Some n /\ NearEarthObject.designation n = d /\
    forall p' n', ns !! p' = Some n' -> NearEarthObject.designation n' = d -> p' <= p.
Proof.
  revert p. induction ns as [|n ns IH]; intros p; simpl; [discriminate|].
  destruct (last_index d ns) as [q|] eqn:Hl.
  - intros [= <-]. destruct (IH q eq_refl) as (n' & Hn' & Hd & Hmax).
    exists n'. split; [exact Hn'|]. split; [exact Hd|].
    intros [|p'] n'' Hp' Hd'; [lia|]. simpl in Hp'. specialize (Hmax p' n'' Hp' Hd'). lia.
  - destruct (String.eqb_spec (NearEarthObject.designation n) d) as [Hd|]; [|discriminate].
    intros [= <-]. exists n. split; [reflexivity|]. split; [exact Hd|].
    intros [|p'] n'' Hp' Hd'; [lia|]. simpl in Hp'. exfalso.
    exact (last_index_none d ns Hl p' n'' Hp' Hd').
Qed.

Lemma designations_with_indices_lookup ns d :
  NEODatabase.designations_with_indices ns !! d = last_index d ns.
Proof.
  unfold NEODatabase.designations_with_indices. rewrite index_loop_lookup.
  destruct (last_index d ns); reflexivity.
Qed.

(* ------------------------------------------------------------------ *)
(** ** The linkage pass of [__init__] *)

(** The positions [k], counted from [k0], of the approaches of [rest]
    that the index sends to NEO [j]. *)
Fixpoint targets (m : gmap string nat) (j k0 : nat) (rest : list CA) : list nat :=
  match rest with
  | [] => []
  | a :: rest =>
      (if decide (m !! CloseApproach.designation a = Some j) then [k0] else [])
      ++ targets m j (S k0) rest
  end.

(** An approach after the pass: linked when its designation is indexed. *)
Definition linked (m : gmap string nat) (a : CA) : CA :=
  match m !! CloseApproach.designation a with
  | Some j => NEODatabase.set_neo j a
  | None => a
  end.

Definition add_approaches (n : NEO) (ks : list nat) : NEO :=
  NearEarthObject.mk (NearEarthObject.designation n) (NearEarthObject.name n)
    (NearEarthObject.diameter n) (NearEarthObject.hazardous n)
    (NearEarthObject.approaches n ++ ks).

Lemma add_approaches_nil n : add_approaches n [] = n.
Proof. destruct n; unfold add_approaches; simpl. by rewrite app_nil_r. Qed.

Lemma add_approaches_app n xs ys :
  add_approaches (add_approaches n xs) ys = add_approaches n (xs ++ ys).
Proof. destruct n; unfold add_approaches; simpl. by rewrite app_assoc. Qed.

Lemma link_loop_state m k0 rest N A :
  (forall i, A !! (k0 + i) = rest !! i) ->
  let s' := snd (NEODatabase.link_loop m k0 rest (mkDB N A)) in
  (forall k, _approaches s' !! k
             = if decide (k0 <= k) then linked m <$> A !! k else A !! k) /\
  (forall j, _neos s' !! j = (fun n => add_approaches n (targets m j k0 rest)) <$> N !! j).
Proof.
  revert k0 N A. induction rest as [|a rest IH]; intros k0 N A HA; simpl.
  - split.
    + intros k. case_decide as Hk; [|reflexivity].
      replace k with (k0 + (k - k0)) by lia. by rewrite HA.
    + intros j. destruct (N !! j); simpl; [by rewrite add_approaches_nil|reflexivity].
  - assert (Ha : A !! k0 = Some a) by (rewrite <- (Nat.add_0_r k0); apply HA).
    unfold bind.
    destruct (m !! CloseApproach.designation a) as [j0|] eqn:Hm; simpl.
    + set (A1 := alter (NEODatabase.set_neo j0) k0 A).
      set (N1 := alter (NEODatabase.append_approach k0) j0 N).
      assert (HA1 : forall i, A1 !! (S k0 + i) = rest !! i).
      { intros i. unfold A1. rewrite list_lookup_alter_ne by lia.
        replace (S k0 + i) with (k0 + S i) by lia. apply HA. }
      destruct (IH (S k0) N1 A1 HA1) as [IHa IHn]. split.
      * intros k. rewrite IHa. unfold A1.
        destruct (decide (k = k0)) as [->|Hne].
        -- rewrite decide_False by lia. rewrite decide_True by lia.
           rewrite list_lookup_alter_eq, Ha. simpl. unfold linked. by rewrite Hm.
        -- rewrite list_lookup_alter_ne by congruence.
           destruct (decide (S k0 <= k)), (decide (k0 <= k)); try lia; reflexivity.
      * intros j. rewrite IHn. unfold N1.
        destruct (decide (j = j0)) as [->|Hne].
        -- rewrite list_lookup_alter_eq. rewrite decide_True by reflexivity.
           destruct (N !! j0) as [n|]; simpl; [|reflexivity].
           f_equal. unfold NEODatabase.append_approach.
           change (NearEarthObject.mk _ _ _ _ _) with (add_approaches n [k0]).
           by rewrite add_approaches_app.
        -- rewrite list_lookup_alter_ne by congruence.
           rewrite decide_False by congruence. reflexivity.
    + assert (HA1 : forall i, A !! (S k0 + i) = rest !! i).
      { intros i. replace (S k0 + i) with (k0 + S i) by lia. apply HA. }
      destruct (IH (S k0) N A HA1) as [IHa IHn]. split.
      * intros k. rewrite IHa.
        destruct (decide (k = k0)) as [->|Hne].
        -- rewrite decide_False by lia. rewrite decide_True by lia.
           rewrite Ha. simpl. unfold linked. by rewrite Hm.
        -- destruct (decide (S k0 <= k)), (decide (k0 <= k)); try lia; reflexivity.
      * intros j. rewrite IHn. reflexivity.
Qed.

Lemma targets_count m j k0 rest k :
  count_occ Nat.eq_dec (targets m j k0 rest) k
  = match (if decide (k0 <= k) then rest !! (k - k0) else None) with
    | Some a => if decide (m !! CloseApproach.designation a = Some j) then 1 else 0
    | None => 0
    end.
Proof.
  revert k0. induction rest as [|a rest IH]; intros k0; simpl.
  - case_decide; reflexivity.
  - rewrite count_occ_app, IH.
    destruct (decide (k = k0)) as [->|Hne].
    + destruct (decide (S k0 <= k0)); [lia|]. destruct (decide (k0 <= k0)); [|lia].
      rewrite Nat.sub_diag. simpl.
      case_decide; simpl; [|reflexivity].
      destruct (Nat.eq_dec k0 k0); [reflexivity|congruence].
    + assert (Hc : count_occ Nat.eq_dec
                     (if decide (m !! CloseApproach.designation a = Some j) then [k0] else [])
                     k = 0).
      { case_decide; simpl; [|reflexivity]. destruct (Nat.eq_dec k0 k); congruence. }
      rewrite Hc. simpl.
      destruct (decide (S k0 <= k)), (decide (k0 <= k)); try lia; try reflexivity.
      replace (k - k0) with (S (k - S k0)) by lia. reflexivity.
Qed.

Lemma init_approaches neos apps k :
  _approaches (NEODatabase.init neos apps) !! k
  = linked (NEODatabase.designations_with_indices neos) <$> apps !! k.
Proof.
  unfold NEODatabase.init.
  destruct (link_loop_state (NEODatabase.designations_with_indices neos) 0 apps neos apps
              (fun i => eq_refl)) as [Ha _].
  rewrite Ha. rewrite decide_True by lia. reflexivity.
Qed.

Lemma init_neos neos apps j :
  _neos (NEODatabase.init neos apps) !! j
  = (fun n => add_approaches n (targets (NEODatabase.designations_with_indices neos) j 0 apps))
      <$> neos !! j.
Proof.
  unfold NEODatabase.init.
  destruct (link_loop_state (NEODatabase.designations_with_indices neos) 0 apps neos apps
              (fun i => eq_refl)) as [_ Hn].
  apply Hn.
Qed.

Lemma index_matching neos (a : CA) :
  (exists j n, neos !! j = Some n /\
               NearEarthObject.designation n = CloseApproach.designation a) ->
  exists p n0, NEODatabase.designations_with_indices neos !! CloseApproach.designation a = Some p /\
    neos !! p = Some n0 /\
    NearEarthObject.designation n0 = CloseApproach.designation a /\
    forall j' n', neos !! j' = Some n' ->
      NearEarthObject.designation n' = CloseApproach.designation a -> j' <= p.
Proof.
  intros (j & n & Hj & Hd). rewrite designations_with_indices_lookup.
  destruct (last_index (CloseApproach.designation a) neos) as [p|] eqn:Hl.
  - destruct (last_index_some _ _ _ Hl) as (n0 & Hn0 & Hd0 & Hmax).
    exists p, n0. auto.
  - exfalso. exact (last_index_none _ _ Hl j n Hj Hd).
Qed.

(* ------------------------------------------------------------------ *)
(** ** Claims: linkage *)

(** C2. After [NEODatabase(neos, approaches)], built from freshly
    constructed entities (empty [approaches] lists, [neo] unset), an
    approach whose designation is some NEO's designation has [neo] set to
    an NEO of that designation and occurs exactly once in that NEO's
    [approaches]; an approach matching no NEO is left as it was, with
    [neo] unset. The constructor is total: it raises nothing. *)
Theorem init_links_approaches :
  forall (neos : list NEO) (approaches : list CA),
    Forall (fun n => NearEarthObject.approaches n = []) neos ->
    Forall (fun a => CloseApproach.neo a = None) approaches ->
    forall (k : nat) (a : CA), approaches !! k = Some a ->
    let s := NEODatabase.init neos approaches in
    ((exists j n, neos !! j = Some n /\
                  NearEarthObject.designation n = CloseApproach.designation a) ->
     exists j n, _approaches s !! k = Some (NEODatabase.set_neo j a) /\
       _neos s !! j = Some n /\
       NearEarthObject.designation n = CloseApproach.designation a /\
       count_occ Nat.eq_dec (NearEarthObject.approaches n) k = 1) /\
    ((forall j n, neos !! j = Some n ->
                  NearEarthObject.designation n <> CloseApproach.designation a) ->
     _approaches s !! k = Some a /\ CloseApproach.neo a = None).
Proof.
  intros neos apps Hn Ha k a Hk s. split.
  - intros Hex.
    destruct (index_matching neos a Hex) as (p & n0 & Hm & Hn0 & Hd0 & _).
    exists p, (add_approaches n0 (targets (NEODatabase.designations_with_indices neos) p 0 apps)).
    split; [|split; [|split]].
    + unfold s. rewrite init_approaches, Hk. simpl. unfold linked. by rewrite Hm.
    + unfold s. rewrite init_neos, Hn0. reflexivity.
    + exact Hd0.
    + unfold add_approaches; simpl.
      rewrite (Forall_lookup_1 _ _ _ _ Hn Hn0). simpl.
      rewrite targets_count. rewrite decide_True by lia.
      rewrite Nat.sub_0_r, Hk. rewrite decide_True by exact Hm. reflexivity.
  - intros Hnone.
    assert (Hm : NEODatabase.designations_with_indices neos !! CloseApproach.designation a = None).
    { rewrite designations_with_indices_lookup.
      destruct (last_index (CloseApproach.designation a) neos) as [p|] eqn:Hl; [|reflexivity].
      destruct (last_index_some _ _ _ Hl) as (n0 & Hn0 & Hd0 & _).
      exfalso. exact (Hnone p n0 Hn0 Hd0). }
    split.
    + unfold s. rewrite init_approaches, Hk. simpl. unfold linked. by rewrite Hm.
    + exact (Forall_lookup_1 _ _ _ _ Ha Hk).
Qed.

Lemma init_links_approaches_witness :
  Forall (fun n => NearEarthObject.approaches n = []) [eros] /\
  Forall (fun a => CloseApproach.neo a = None) [eros_1900] /\
  [eros_1900] !! 0 = Some eros_1900 /\
  ((exists j n, [eros] !! j = Some n /\
                NearEarthObject.designation n = CloseApproach.designation eros_1900) ->
   exists j n, _approaches sample_db !! 0 = Some (NEODatabase.set_neo j eros_1900) /\
     _neos sample_db !! j = Some n /\
     NearEarthObject.designation n = CloseApproach.designation eros_1900 /\
     count_occ Nat.eq_dec (NearEarthObject.approaches n) 0 = 1).
Proof.
  assert (H1 : Forall (fun n => NearEarthObject.approaches n = []) [eros])
    by (repeat constructor).
  assert (H2 : Forall (fun a => CloseApproach.neo a = None) [eros_1900])
    by (repeat constructor).
  assert (H3 : [eros_1900] !! 0 = Some eros_1900) by reflexivity.
  split; [exact H1|]. split; [exact H2|]. split; [exact H3|].
  apply (proj1 (init_links_approaches [eros] [eros_1900] H1 H2 0 eros_1900 H3)).
Defined.

Definition eros_dup : NEO :=
  NearEarthObject.mk "433" (Some "Eros") NaN true [].

(** C7. With a designation repeated among the NEOs, every approach of
    that designation is linked to the NEO that comes last in input order. *)
Theorem init_last_write_wins :
  forall (neos : list NEO) (approaches : list CA) (k : nat) (a : CA),
    approaches !! k = Some a ->
    (exists j n, neos !! j = Some n /\
                 NearEarthObject.designation n = CloseApproach.designation a) ->
    exists j n,
      _approaches (NEODatabase.init neos approaches) !! k
        = Some (NEODatabase.set_neo j a) /\
      neos !! j = Some n /\
      NearEarthObject.designation n = CloseApproach.designation a /\
      forall j' n', neos !! j' = Some n' ->
        NearEarthObject.designation n' = CloseApproach.designation a -> j' <= j.
Proof.
  intros neos apps k a Hk Hex.
  destruct (index_matching neos a Hex) as (p & n0 & Hm & Hn0 & Hd0 & Hmax).
  exists p, n0. split; [|auto].
  rewrite init_approaches, Hk. simpl. unfold linked. by rewrite Hm.
Qed.

Lemma init_last_write_wins_witness :
  [eros_1900] !! 0 = Some eros_1900 /\
  (exists j n, [eros; eros_dup] !! j = Some n /\
               NearEarthObject.designation n = CloseApproach.designation eros_1900) /\
  (exists j n,
      _approaches (NEODatabase.init [eros; eros_dup] [eros_1900]) !! 0
        = Some (NEODatabase.set_neo j eros_1900) /\
      [eros; eros_dup] !! j = Some n /\
      NearEarthObject.designation n = CloseApproach.designation eros_1900 /\
      forall j' n', [eros; eros_dup] !! j' = Some n' ->
        NearEarthObject.designation n' = CloseApproach.designation eros_1900 -> j' <= j) /\
  _approaches (NEODatabase.init [eros; eros_dup] [eros_1900]) !! 0
    = Some (NEODatabase.set_neo 1 eros_1900).
Proof.
  assert (H1 : [eros_1900] !! 0 = Some eros_1900) by reflexivity.
  assert (H2 : exists j n, [eros; eros_dup] !! j = Some n /\
               NearEarthObject.designation n = CloseApproach.designation eros_1900).
  { exists 0, eros. split; reflexivity. }
  split; [exact H1|]. split; [exact H2|]. split.
  - apply (init_last_write_wins [eros; eros_dup] [eros_1900] 0 eros_1900 H1 H2).
  - vm_compute. reflexivity.
Defined.

(* ------------------------------------------------------------------ *)
(** ** Further properties of [query] *)

Lemma filter_sublist_mono {A} (p q : A -> bool) (l : list A) :
  (forall x, p x = true -> q x = true) ->
  List.filter p l `sublist_of` List.filter q l.
Proof.
  intros Hpq. induction l as [|x l IH]; simpl; [constructor|].
  destruct (p x) eqn:Hp.
  - rewrite (Hpq x Hp). by apply sublist_skip.
  - destruct (q x); [by apply sublist_cons|exact IH].
Qed.

Lemma filter_sublist {A} (p : A -> bool) (l : list A) : List.filter p l `sublist_of` l.
Proof.
  induction l as [|x l IH]; simpl; [constructor|].
  destruct (p x); [by apply sublist_skip|by apply sublist_cons].
Qed.

Lemma query_loop_sublist fs l s r :
  fst (NEODatabase.query_loop fs l s) = Ok r -> r `sublist_of` l.
Proof.
  revert r. induction l as [|a l IH]; intros r; simpl.
  - intros [= <-]. constructor.
  - unfold bind. pose proof (ro_check_loop a true fs s) as Hs.
    unfold NEODatabase.check_approach_against_filters.
    destruct (NEODatabase.check_loop a true fs s) as [[ok|e] s'] eqn:E;
      simpl in Hs; subst s'; [|discriminate].
    pose proof (ro_query_loop fs l s) as Hs'.
    specialize (IH).
    destruct (NEODatabase.query_loop fs l s) as [[ys|e] s'] eqn:E';
      simpl in Hs'; subst s'; simpl; [|discriminate].
    intros [= <-]. specialize (IH ys eq_refl).
    destruct ok; [by apply sublist_skip|by apply sublist_cons].
Qed.

(** [query(F)] only drops approaches: whenever it completes, its result is
    a subsequence of the stored approaches, in their stored order. *)
Theorem query_result_sublist :
  forall (filters : list filter) (s : DB) (r : list CA),
    fst (NEODatabase.query filters s) = Ok r -> r `sublist_of` _approaches s.
Proof.
  intros [|f fs] s r; simpl.
  - intros [= <-]. reflexivity.
  - unfold bind, gets. apply query_loop_sublist.
Qed.

Lemma query_result_sublist_witness :
  fst (NEODatabase.query [dist_le (5 # 10)] sample_db) = Ok (_approaches sample_db) /\
  _approaches sample_db `sublist_of` _approaches sample_db.
Proof.
  assert (H : fst (NEODatabase.query [dist_le (5 # 10)] sample_db) = Ok (_approaches sample_db))
    by reflexivity.
  split; [exact H|]. apply (query_result_sublist _ sample_db _ H).
Defined.

Lemma query_eval s filters :
  (forall f a, In f filters -> In a (_approaches s) -> exists b, fst (call f a s) = Ok b) ->
  fst (NEODatabase.query filters s)
  = Ok (List.filter (fun a => forallb (fun f => holds s f a) filters) (_approaches s)).
Proof.
  destruct filters as [|f fs]; intros H; simpl.
  - f_equal. clear H. induction (_approaches s) as [|a l IH]; simpl; congruence.
  - unfold bind, gets. by apply query_loop_ok.
Qed.

(** Adding filters can only shrink the result: when the filters of [F]
    and [G] return booleans on every approach, [query(F + G)] is a
    subsequence of [query(F)]. *)
Theorem query_more_filters_sublist :
  forall (s : DB) (F G : list filter),
    (forall f a, In f (F ++ G) -> In a (_approaches s) -> exists b, fst (call f a s) = Ok b) ->
    exists r1 r2, fst (NEODatabase.query (F ++ G) s) = Ok r1 /\
                  fst (NEODatabase.query F s) = Ok r2 /\ r1 `sublist_of` r2.
Proof.
  intros s F G H.
  eexists _, _. split; [apply query_eval, H|]. split.
  - apply query_eval. intros f a Hf Ha. apply H; [apply in_or_app; left|]; assumption.
  - apply filter_sublist_mono. intros a Ha. rewrite forallb_app in Ha.
    by apply andb_prop in Ha as [? _].
Qed.

Lemma query_more_filters_sublist_witness :
  (forall f a, In f ([dist_le (5 # 10)] ++ [dist_le (1 # 10)]) -> In a (_approaches sample_db) ->
               exists b, fst (call f a sample_db) = Ok b) /\
  exists r1 r2, fst (NEODatabase.query ([dist_le (5 # 10)] ++ [dist_le (1 # 10)]) sample_db) = Ok r1 /\
                fst (NEODatabase.query [dist_le (5 # 10)] sample_db) = Ok r2 /\ r1 `sublist_of` r2.
Proof.
  assert (H : forall f a, In f ([dist_le (5 # 10)] ++ [dist_le (1 # 10)]) ->
                In a (_approaches sample_db) -> exists b, fst (call f a sample_db) = Ok b).
  { intros f a Hf Ha. destruct Hf as [<-|[<-|[]]]; eexists; reflexivity. }
  split; [exact H|]. apply (query_more_filters_sublist sample_db _ _ H).
Defined.

Lemma forallb_perm {A} (p : A -> bool) (l1 l2 : list A) :
  Permutation l1 l2 -> forallb p l1 = forallb p l2.
Proof.
  induction 1 as [|x l1 l2 _ IH|x y l|l1 l2 l3 _ IH1 _ IH2]; simpl.
  - reflexivity.
  - by rewrite IH.
  - by rewrite !andb_assoc, (andb_comm (p y)).
  - congruence.
Qed.

(** The order of the filters does not matter: when they return booleans,
    [query] gives the same stream for any reordering of the filters. *)
Theorem query_filter_order_irrelevant :
  forall (s : DB) (F G : list filter),
    Permutation F G ->
    (forall f a, In f F -> In a (_approaches s) -> exists b, fst (call f a s) = Ok b) ->
    fst (NEODatabase.query F s) = fst (NEODatabase.query G s).
Proof.
  intros s F G HP H.
  rewrite (query_eval s F H).
  rewrite (query_eval s G).
  - f_equal. apply List.filter_ext. intros a. by apply forallb_perm.
  - intros f a Hf Ha. apply H; [|exact Ha].
    apply (Permutation_in f (Permutation_sym HP) Hf).
Qed.

Lemma query_filter_order_irrelevant_witness :
  Permutation [dist_le (5 # 10); dist_le 1] [dist_le 1; dist_le (5 # 10)] /\
  (forall f a, In f [dist_le (5 # 10); dist_le 1] -> In a (_approaches sample_db) ->
               exists b, fst (call f a sample_db) = Ok b) /\
  fst (NEODatabase.query [dist_le (5 # 10); dist_le 1] sample_db)
  = fst (NEODatabase.query [dist_le 1; dist_le (5 # 10)] sample_db).
Proof.
  assert (HP : Permutation [dist_le (5 # 10); dist_le 1] [dist_le 1; dist_le (5 # 10)])
    by apply perm_swap.
  assert (H : forall f a, In f [dist_le (5 # 10); dist_le 1] -> In a (_approaches sample_db) ->
               exists b, fst (call f a sample_db) = Ok b).
  { intros f a Hf Ha. destruct Hf as [<-|[<-|[]]]; eexists; reflexivity. }
  split; [exact HP|]. split; [exact H|].
  apply (query_filter_order_irrelevant sample_db _ _ HP H).
Defined.

Lemma check_loop_raises a s mf pre f e rest :
  (forall g, In g pre -> exists b, fst (call g a s) = Ok b) ->
  fst (call f a s) = Err e ->
  fst (NEODatabase.check_loop a mf (pre ++ f :: rest) s) = Err e.
Proof.
  revert mf. induction pre as [|g pre IH]; intros mf Hpre Hf; simpl; unfold bind.
  - pose proof (ro_call f a s) as Hs.
    destruct (call f a s) as [r s'] eqn:E. simpl in Hs, Hf. subst. reflexivity.
  - pose proof (ro_call g a s) as Hs.
    destruct (Hpre g (or_introl eq_refl)) as [b Hb].
    destruct (call g a s) as [r s'] eqn:E. simpl in Hs, Hb. subst.
    assert (Hpre' : forall g', In g' pre -> exists b, fst (call g' a s) = Ok b)
      by (intros; apply Hpre; right; assumption).
    destruct b; by apply IH.
Qed.

(** [check_approach_against_filters] does not stop at the first failing
    filter: it evaluates every filter, so a filter that raises makes the
    check raise even after an earlier filter has returned [False]. *)
Theorem check_evaluates_all_filters :
  forall (a : CA) (s : DB) (pre : list filter) (f : filter) (e : exn) (rest : list filter),
    (forall g, In g pre -> exists b, fst (call g a s) = Ok b) ->
    fst (call f a s) = Err e ->
    fst (NEODatabase.check_approach_against_filters a (pre ++ f :: rest) s) = Err e.
Proof. intros. by apply check_loop_raises. Qed.

Lemma check_evaluates_all_filters_witness :
  (forall g, In g [dist_le (1 # 10)] -> exists b, fst (call g eros_1900 sample_db) = Ok b) /\
  fst (call (mkFilter DiameterFilter op_le (VFloat (Fin 1))) eros_1900 sample_db) = Err AttributeError /\
  fst (call (dist_le (1 # 10)) eros_1900 sample_db) = Ok false /\
  fst (NEODatabase.check_approach_against_filters eros_1900
         ([dist_le (1 # 10)] ++ mkFilter DiameterFilter op_le (VFloat (Fin 1)) :: []) sample_db)
  = Err AttributeError.
Proof.
  assert (H1 : forall g, In g [dist_le (1 # 10)] -> exists b, fst (call g eros_1900 sample_db) = Ok b).
  { intros g [<-|[]]. eexists. reflexivity. }
  assert (H2 : fst (call (mkFilter DiameterFilter op_le (VFloat (Fin 1))) eros_1900 sample_db)
               = Err AttributeError) by reflexivity.
  split; [exact H1|]. split; [exact H2|]. split; [reflexivity|].
  apply (check_evaluates_all_filters eros_1900 sample_db _ _ _ [] H1 H2).
Defined.

(* ------------------------------------------------------------------ *)
(** ** Case handling of the lookups *)

Ltac all_chars c :=
  destruct c as [[] [] [] [] [] [] [] []]; reflexivity.

Lemma upper_lower_char c : upper_char (lower_char c) = upper_char c.
Proof. all_chars c. Qed.

Lemma lower_lower_char c : lower_char (lower_char c) = lower_char c.
Proof. all_chars c. Qed.

Lemma upper_upper_char c : upper_char (upper_char c) = upper_char c.
Proof. all_chars c. Qed.

Lemma upper_lower s : upper (lower s) = upper s.
Proof. induction s; simpl; [reflexivity|]. by rewrite upper_lower_char, IHs. Qed.

Lemma lower_lower s : lower (lower s) = lower s.
Proof. induction s; simpl; [reflexivity|]. by rewrite lower_lower_char, IHs. Qed.

Lemma upper_upper s : upper (upper s) = upper s.
Proof. induction s; simpl; [reflexivity|]. by rewrite upper_upper_char, IHs. Qed.

Lemma capitalize_lower s : capitalize (lower s) = capitalize s.
Proof. destruct s; simpl; [reflexivity|]. by rewrite upper_lower_char, lower_lower. Qed.

Lemma capitalize_idem s : capitalize (capitalize s) = capitalize s.
Proof. destruct s; simpl; [reflexivity|]. by rewrite upper_upper_char, lower_lower. Qed.

(** [get_neo_by_designation] ignores the case of its argument (ASCII):
    two queries that agree up to case find the same NEO or both find none. *)
Theorem get_neo_by_designation_case_insensitive :
  forall (s : DB) (d1 d2 : string),
    lower d1 = lower d2 ->
    NEODatabase.get_neo_by_designation s d1 = NEODatabase.get_neo_by_designation s d2.
Proof.
  intros s d1 d2 H. unfold NEODatabase.get_neo_by_designation.
  by rewrite <- (upper_lower d1), <- (upper_lower d2), H.
Qed.

Lemma get_neo_by_designation_case_insensitive_witness :
  lower "433eros" = lower "433EROS" /\
  NEODatabase.get_neo_by_designation sample_db "433eros"
  = NEODatabase.get_neo_by_designation sample_db "433EROS".
Proof.
  assert (H : lower "433eros" = lower "433EROS") by reflexivity.
  split; [exact H|]. apply (get_neo_by_designation_case_insensitive sample_db _ _ H).
Defined.

(** An NEO whose designation has a lower-case ASCII letter is never
    returned by [get_neo_by_designation]: whatever it returns has an
    upper-case designation. *)
Theorem get_neo_by_designation_upper_only :
  forall (s : DB) (d : string) (n : NEO),
    NEODatabase.get_neo_by_designation s d = Some n ->
    upper (NearEarthObject.designation n) = NearEarthObject.designation n.
Proof.
  intros s d n H. unfold NEODatabase.get_neo_by_designation in H.
  rewrite find_designation_find in H. apply find_some in H as [_ Hd].
  apply String.eqb_eq in Hd. rewrite Hd. apply upper_upper.
Qed.

Lemma get_neo_by_designation_upper_only_witness :
  NEODatabase.get_neo_by_designation sample_db "433"
    = Some (add_approaches eros [0]) /\
  upper (NearEarthObject.designation (add_approaches eros [0]))
    = NearEarthObject.designation (add_approaches eros [0]).
Proof.
  assert (H : NEODatabase.get_neo_by_designation sample_db "433"
              = Some (add_approaches eros [0])) by reflexivity.
  split; [exact H|]. apply (get_neo_by_designation_upper_only sample_db "433" _ H).
Defined.

(** [get_neo_by_name] ignores the case of its argument (ASCII): two
    queries that agree up to case give the same result. *)
Theorem get_neo_by_name_case_insensitive :
  forall (s : DB) (n1 n2 : string),
    lower n1 = lower n2 ->
    NEODatabase.get_neo_by_name s n1 = NEODatabase.get_neo_by_name s n2.
Proof.
  intros s n1 n2 H. unfold NEODatabase.get_neo_by_name.
  by rewrite <- (capitalize_lower n1), <- (capitalize_lower n2), H.
Qed.

Lemma get_neo_by_name_case_insensitive_witness :
  lower "EROS" = lower "eRoS" /\
  NEODatabase.get_neo_by_name sample_db "EROS" = NEODatabase.get_neo_by_name sample_db "eRoS".
Proof.
  assert (H : lower "EROS" = lower "eRoS") by reflexivity.
  split; [exact H|]. apply (get_neo_by_name_case_insensitive sample_db _ _ H).
Defined.

(** [get_neo_by_name] only ever returns an NEO whose stored name is
    already in [capitalize] form (first letter upper-case, the rest
    lower-case); an NEO whose name has another upper-case letter, or no
    name, cannot be found by name. *)
Theorem get_neo_by_name_capitalized_only :
  forall (s : DB) (nm : string) (n : NEO),
    NEODatabase.get_neo_by_name s nm = Some n ->
    exists t, NearEarthObject.name n = Some t /\ capitalize t = t.
Proof.
  intros s nm n H. unfold NEODatabase.get_neo_by_name in H.
  rewrite find_name_find in H. apply find_some in H as [_ Hd].
  destruct (NearEarthObject.name n) as [t|] eqn:E; simpl in Hd; [|discriminate].
  apply String.eqb_eq in Hd. exists t. split; [reflexivity|].
  rewrite Hd. apply capitalize_idem.
Qed.

Lemma get_neo_by_name_capitalized_only_witness :
  NEODatabase.get_neo_by_name sample_db "eros" = Some (add_approaches eros [0]) /\
  exists t, NearEarthObject.name (add_approaches eros [0]) = Some t /\ capitalize t = t.
Proof.
  assert (H : NEODatabase.get_neo_by_name sample_db "eros" = Some (add_approaches eros [0]))
    by reflexivity.
  split; [exact H|]. apply (get_neo_by_name_capitalized_only sample_db "eros" _ H).
Defined.

(* ------------------------------------------------------------------ *)
(** ** Filters built by [create_filters] *)

Lemma append_if_Forall (P : filter -> Prop) test f acc :
  Forall P acc -> (test = true -> P f) -> Forall P (append_if test f acc).
Proof.
  intros Hacc Hf. unfold append_if. destruct test; [|exact Hacc].
  apply Forall_app; split; [exact Hacc|]. constructor; [by apply Hf|constructor].
Qed.

Lemma create_filters_Forall (P : filter -> Prop) (c : Criteria.t) :
  (truthy (Criteria.date c) = true -> P (mkFilter DateFilter op_eq (Criteria.date c))) ->
  (truthy (Criteria.start_date c) = true -> P (mkFilter DateFilter op_ge (Criteria.start_date c))) ->
  (truthy (Criteria.end_date c) = true -> P (mkFilter DateFilter op_le (Criteria.end_date c))) ->
  (truthy (Criteria.velocity_min c) = true ->
     P (mkFilter VelocityFilter op_ge (Criteria.velocity_min c))) ->
  (truthy (Criteria.velocity_max c) = true ->
     P (mkFilter VelocityFilter op_le (Criteria.velocity_max c))) ->
  (truthy (Criteria.distance_min c) = true ->
     P (mkFilter DistanceFilter op_ge (Criteria.distance_min c))) ->
  (truthy (Criteria.distance_max c) = true ->
     P (mkFilter DistanceFilter op_le (Criteria.distance_max c))) ->
  (is_not_None (Criteria.hazardous c) = true ->
     P (mkFilter HazardousFilter op_eq (Criteria.hazardous c))) ->
  (truthy (Criteria.diameter_min c) = true ->
     P (mkFilter DiameterFilter op_ge (Criteria.diameter_min c))) ->
  (truthy (Criteria.diameter_max c) = true ->
     P (mkFilter DiameterFilter op_le (Criteria.diameter_max c))) ->
  Forall P (create_filters c).
Proof.
  intros H1 H2 H3 H4 H5 H6 H7 H8 H9 H10. unfold create_filters.
  repeat (apply append_if_Forall; [|assumption]). constructor.
Qed.

Lemma check_loop_err a s mf fs e :
  fst (NEODatabase.check_loop a mf fs s) = Err e -> exists f, In f fs /\ fst (call f a s) = Err e.
Proof.
  revert mf. induction fs as [|f fs IH]; intros mf; simpl; [discriminate|].
  unfold bind. pose proof (ro_call f a s) as Hs.
  destruct (call f a s) as [[b|e'] s'] eqn:E; simpl in Hs; subst s'.
  - intros H. destruct b; apply IH in H as (g & Hg & Hge); exists g; auto.
  - intros [= ->]. exists f. split; [left; reflexivity|]. by rewrite E.
Qed.

Lemma query_loop_err fs l s e :
  fst (NEODatabase.query_loop fs l s) = Err e ->
  exists f a, In f fs /\ In a l /\ fst (call f a s) = Err e.
Proof.
  induction l as [|a l IH]; simpl; [discriminate|].
  unfold bind, NEODatabase.check_approach_against_filters.
  pose proof (ro_check_loop a true fs s) as Hs.
  destruct (NEODatabase.check_loop a true fs s) as [[ok|e'] s'] eqn:E; simpl in Hs; subst s'.
  - cbv beta. unfold bind. pose proof (ro_query_loop fs l s) as Hs'.
    destruct (NEODatabase.query_loop fs l s) as [[ys|e'] s'] eqn:E'; simpl in Hs'; subst s';
      simpl; [discriminate|].
    intros [= ->]. destruct IH as (f & a' & Hf & Ha & He); [reflexivity|].
    exists f, a'. auto.
  - simpl. intros [= ->].
    destruct (check_loop_err a s true fs e) as (f & Hf & He); [by rewrite E|].
    exists f, a. auto.
Qed.

Lemma query_err fs s e :
  fst (NEODatabase.query fs s) = Err e ->
  exists f a, In f fs /\ In a (_approaches s) /\ fst (call f a s) = Err e.
Proof.
  destruct fs as [|f fs]; simpl; [discriminate|]. unfold bind, gets. apply query_loop_err.
Qed.

Lemma call_unsupported f a s :
  fst (call f a s) = Err UnsupportedCriterionError -> cls f = AttributeFilter.
Proof.
  destruct f as [c o v]. unfold call, bind. simpl.
  destruct (get c a s) as [[x|e] s'] eqn:E; simpl.
  - destruct (apply_op o x v) eqn:A; simpl; [discriminate|].
    intros [= ->]. apply apply_op_err in A. discriminate.
  - intros [= ->]. by apply (get_unsupported c a s s').
Qed.

(** The filters of [create_filters] are all of concrete classes, so a
    query over them never raises [UnsupportedCriterionError]. *)
Theorem create_filters_query_never_unsupported :
  forall (c : Criteria.t) (s : DB),
    Forall (fun f => cls f <> AttributeFilter) (create_filters c) /\
    fst (NEODatabase.query (create_filters c) s) <> Err UnsupportedCriterionError.
Proof.
  intros c s.
  assert (HF : Forall (fun f => cls f <> AttributeFilter) (create_filters c))
    by (apply create_filters_Forall; intros; discriminate).
  split; [exact HF|]. intros He.
  destruct (query_err _ _ _ He) as (f & a & Hf & _ & Hfe).
  apply call_unsupported in Hfe.
  rewrite Forall_forall in HF. exact (HF f (proj2 (list_elem_of_In _ _) Hf) Hfe).
Qed.

(** A criterion of the type [create_filters] expects, or [None]. *)
Definition date_or_None (v : value) : bool :=
  match v with VDate _ | VNone => true | _ => false end.
Definition float_or_None (v : value) : bool :=
  match v with VFloat _ | VNone => true | _ => false end.
Definition bool_or_None (v : value) : bool :=
  match v with VBool _ | VNone => true | _ => false end.

Definition well_typed (c : Criteria.t) : bool :=
  date_or_None (Criteria.date c) && date_or_None (Criteria.start_date c)
  && date_or_None (Criteria.end_date c)
  && float_or_None (Criteria.distance_min c) && float_or_None (Criteria.distance_max c)
  && float_or_None (Criteria.velocity_min c) && float_or_None (Criteria.velocity_max c)
  && float_or_None (Criteria.diameter_min c) && float_or_None (Criteria.diameter_max c)
  && bool_or_None (Criteria.hazardous c).

(** Whether [create_filters] builds a filter that reads [approach.neo]. *)
Definition needs_neo (c : Criteria.t) : bool :=
  truthy (Criteria.diameter_min c) || truthy (Criteria.diameter_max c)
  || is_not_None (Criteria.hazardous c).

(** The filters a [create_filters] call can build from well-typed criteria. *)
Definition good_filter (needs : bool) (f : filter) : Prop :=
  match cls f, fvalue f with
  | DateFilter, VDate _ => True
  | (DistanceFilter | VelocityFilter), VFloat _ => True
  | DiameterFilter, VFloat _ => needs = true
  | HazardousFilter, VBool _ => needs = true
  | _, _ => False
  end.

Definition linked_in (s : DB) (a : CA) : Prop :=
  exists j n, CloseApproach.neo a = Some j /\ _neos s !! j = Some n.

Lemma create_filters_good (c : Criteria.t) :
  well_typed c = true -> Forall (good_filter (needs_neo c)) (create_filters c).
Proof.
  unfold well_typed, needs_neo. intros H. repeat (apply andb_prop in H as [H ?]).
  destruct c as [d sd ed dmin dmax vmin vmax dimin dimax hz]; simpl in *.
  apply create_filters_Forall; simpl; intros Ht; unfold good_filter; simpl;
    repeat match goal with
    | |- context [match ?v with _ => _ end] =>
        is_var v; destruct v; simpl in *; try discriminate; try tauto
    end;
    rewrite ?Ht, ?orb_true_r; reflexivity.
Qed.

Lemma good_filter_call needs f a s :
  good_filter needs f -> (needs = true -> linked_in s a) ->
  exists b, fst (call f a s) = Ok b.
Proof.
  destruct f as [c o v]. unfold good_filter; simpl. intros Hg Hl.
  unfold call, bind; simpl.
  destruct c, v; try contradiction; simpl;
    try (destruct o; simpl; eexists; reflexivity);
    (destruct (Hl Hg) as (j & n & Hj & Hn); unfold neo_attr, bind, gets;
     rewrite Hj; simpl; rewrite Hn; simpl; destruct o; simpl; eexists; reflexivity).
Qed.

(** A query over the filters [create_filters] builds from criteria of the
    expected types (dates, floats, a bool, or [None]) completes without an
    exception and yields the approaches passing all filters, provided every
    approach is linked to an NEO whenever a diameter or hazardous criterion
    is given. Without those criteria, orphan approaches are harmless. *)
Theorem create_filters_query_total :
  forall (c : Criteria.t) (s : DB),
    well_typed c = true ->
    (needs_neo c = true -> forall a, In a (_approaches s) -> linked_in s a) ->
    fst (NEODatabase.query (create_filters c) s)
    = Ok (List.filter (fun a => forallb (fun f => holds s f a) (create_filters c))
            (_approaches s)).
Proof.
  intros c s Hwt Hl. apply query_eval. intros f a Hf Ha.
  pose proof (create_filters_good c Hwt) as HG. rewrite Forall_forall in HG.
  apply (good_filter_call (needs_neo c)).
  - apply HG. by apply list_elem_of_In.
  - intros Hn. exact (Hl Hn a Ha).
Qed.

Definition orphan_db : DB := NEODatabase.init [] [eros_1900].

Lemma create_filters_query_total_witness :
  well_typed (Criteria.mk VNone VNone VNone VNone (VFloat (Fin 1)) VNone VNone VNone VNone VNone)
    = true /\
  (needs_neo (Criteria.mk VNone VNone VNone VNone (VFloat (Fin 1)) VNone VNone VNone VNone VNone)
     = true -> forall a, In a (_approaches orphan_db) -> linked_in orphan_db a) /\
  fst (NEODatabase.query
         (create_filters (Criteria.mk VNone VNone VNone VNone (VFloat (Fin 1))
                            VNone VNone VNone VNone VNone)) orphan_db)
  = Ok (_approaches orphan_db).
Proof.
  assert (H1 : well_typed (Criteria.mk VNone VNone VNone VNone (VFloat (Fin 1))
                             VNone VNone VNone VNone VNone) = true) by reflexivity.
  assert (H2 : needs_neo (Criteria.mk VNone VNone VNone VNone (VFloat (Fin 1))
                            VNone VNone VNone VNone VNone) = true ->
               forall a, In a (_approaches orphan_db) -> linked_in orphan_db a)
    by (intros H; discriminate H).
  split; [exact H1|]. split; [exact H2|].
  rewrite (create_filters_query_total _ orphan_db H1 H2). reflexivity.
Defined.

(** The [nan] sentinel fails every numeric bound: a [DistanceFilter] on an
    approach with [nan] distance, a [VelocityFilter] on one with [nan]
    velocity, and a [DiameterFilter] on one whose NEO has [nan] diameter
    all return [False], for any comparator and any numeric reference. *)
Theorem nan_fails_numeric_filters :
  forall (a : CA) (s : DB) (o : comparator) (v : value) (x : pyfloat),
    as_number v = Some x ->
    (CloseApproach.distance a = NaN ->
       fst (call (mkFilter DistanceFilter o v) a s) = Ok false) /\
    (CloseApproach.velocity a = NaN ->
       fst (call (mkFilter VelocityFilter o v) a s) = Ok false) /\
    (forall j n, CloseApproach.neo a = Some j -> _neos s !! j = Some n ->
       NearEarthObject.diameter n = NaN ->
       fst (call (mkFilter DiameterFilter o v) a s) = Ok false).
Proof.
  intros a s o v x Hv.
  assert (Hop : apply_op o (VFloat NaN) v = Ok false).
  { destruct v as [y|bb| |]; simpl in Hv; try discriminate;
      destruct o; simpl; try reflexivity; try destruct y; try destruct bb; reflexivity. }
  unfold call, bind; simpl. split; [|split].
  - intros Hd. rewrite Hd. simpl. by rewrite Hop.
  - intros Hd. rewrite Hd. simpl. by rewrite Hop.
  - intros j n Hj Hn Hd. unfold neo_attr, bind, gets. rewrite Hj. simpl. rewrite Hn.
    simpl. rewrite Hd. by rewrite Hop.
Qed.

Definition eros_nan_approach : CA :=
  CloseApproach.mk "433" (mkDatetime (mkDate 1900 1 1) 0 0) NaN NaN (Some 0).

Lemma nan_fails_numeric_filters_witness :
  as_number (VFloat (Fin 1)) = Some (Fin 1) /\
  fst (call (mkFilter DistanceFilter op_le (VFloat (Fin 1))) eros_nan_approach sample_db)
    = Ok false.
Proof.
  assert (H : as_number (VFloat (Fin 1)) = Some (Fin 1)) by reflexivity.
  split; [exact H|].
  apply (proj1 (nan_fails_numeric_filters eros_nan_approach sample_db op_le _ _ H) eq_refl).
Defined.

(** A [HazardousFilter(operator.eq, b)] on an approach linked to an NEO
    returns whether that NEO's [hazardous] flag equals [b]. *)
Theorem hazardous_filter_semantics :
  forall (a : CA) (s : DB) (j : nat) (n : NEO) (b : bool),
    CloseApproach.neo a = Some j -> _neos s !! j = Some n ->
    fst (call (mkFilter HazardousFilter op_eq (VBool b)) a s)
    = Ok (Bool.eqb (NearEarthObject.hazardous n) b).
Proof.
  intros a s j n b Hj Hn. unfold call, bind; simpl. unfold neo_attr, bind, gets.
  rewrite Hj. simpl. rewrite Hn. simpl.
  by destruct (NearEarthObject.hazardous n), b.
Qed.

Lemma hazardous_filter_semantics_witness :
  CloseApproach.neo eros_nan_approach = Some 0 /\
  _neos sample_db !! 0 = Some (add_approaches eros [0]) /\
  fst (call (mkFilter HazardousFilter op_eq (VBool false)) eros_nan_approach sample_db) = Ok true.
Proof.
  assert (H1 : CloseApproach.neo eros_nan_approach = Some 0) by reflexivity.
  assert (H2 : _neos sample_db !! 0 = Some (add_approaches eros [0])) by reflexivity.
  split; [exact H1|]. split; [exact H2|].
  apply (hazardous_filter_semantics eros_nan_approach sample_db 0 _ false H1 H2).
Defined.

(* ------------------------------------------------------------------ *)
(** ** Constructors, [fullname] and the JSON rows *)

Lemma float_or_nan_finite (d : pyfloat) :
  (exists q, float_or d NaN = Fin q) <-> (exists q, d = Fin q /\ Qeq_bool q 0 = false).
Proof.
  unfold float_or; destruct d as [q|]; simpl.
  - destruct (Qeq_bool q 0) eqn:E; simpl; split.
    + intros [? [=]].
    + intros (q' & [= <-] & H). congruence.
    + intros _. exists q. auto.
    + intros _. exists q. reflexivity.
  - split; [intros [q Hq]; discriminate|]. intros (q & Hq & _). discriminate.
Qed.

(** [NearEarthObject(...)] starts with no approaches and keeps its
    arguments, except that its diameter is finite exactly when a finite,
    non-zero diameter was passed: [None], [0.0] and [nan] all become [nan]. *)
Theorem NearEarthObject_init_spec :
  forall (designation : string) (name : option string) (diameter : option pyfloat)
         (hazardous : bool),
    let n := NearEarthObject_init designation name diameter hazardous in
    NearEarthObject.approaches n = [] /\
    NearEarthObject.designation n = designation /\ NearEarthObject.name n = name /\
    NearEarthObject.hazardous n = hazardous /\
    ((exists q, NearEarthObject.diameter n = Fin q) <->
     (exists q, diameter = Some (Fin q) /\ Qeq_bool q 0 = false)).
Proof.
  intros des nm d hz n. unfold n, NearEarthObject_init; simpl.
  split; [reflexivity|]. split; [reflexivity|]. split; [reflexivity|]. split; [reflexivity|].
  destruct d as [d|].
  - rewrite float_or_nan_finite. split; intros (q & Hq & Hz); exists q; split; congruence.
  - split; intros [q Hq]; [discriminate|]. destruct Hq; discriminate.
Qed.

(** [CloseApproach(...)] keeps its designation, takes [neo] from its
    keyword arguments (unset without one), and has a finite distance
    (velocity) exactly when a finite, non-zero distance (velocity) was
    passed; zero becomes [nan]. *)
Theorem CloseApproach_init_spec :
  forall (cd_to_datetime : string -> datetime) (designation time : string)
         (velocity distance : pyfloat) (neo : option nat),
    let a := CloseApproach_init cd_to_datetime designation time velocity distance neo in
    CloseApproach.designation a = designation /\ CloseApproach.neo a = neo /\
    CloseApproach.time a = cd_to_datetime time /\
    ((exists q, CloseApproach.distance a = Fin q) <->
     (exists q, distance = Fin q /\ Qeq_bool q 0 = false)) /\
    ((exists q, CloseApproach.velocity a = Fin q) <->
     (exists q, velocity = Fin q /\ Qeq_bool q 0 = false)).
Proof.
  intros cd des t v d nb a. unfold a, CloseApproach_init; simpl.
  split; [reflexivity|]. split; [reflexivity|]. split; [reflexivity|].
  split; apply float_or_nan_finite.
Qed.

Lemma string_length_app (s1 s2 : string) :
  String.length (s1 ++ s2) = String.length s1 + String.length s2.
Proof. induction s1; simpl; [reflexivity|]. by rewrite IHs1. Qed.

(** [fullname] is the designation alone exactly when the NEO has no name
    or an empty one; otherwise it is the designation, a space, the name. *)
Theorem fullname_spec :
  forall (n : NEO),
    (fullname n = NearEarthObject.designation n <->
     NearEarthObject.name n = None \/ NearEarthObject.name n = Some EmptyString) /\
    (forall t, NearEarthObject.name n = Some t -> t <> EmptyString ->
       fullname n = (NearEarthObject.designation n ++ " " ++ t)%string).
Proof.
  intros n. unfold fullname. split.
  - destruct (NearEarthObject.name n) as [[|c r]|]; split; auto.
    + intros H. exfalso.
      apply (f_equal String.length) in H. rewrite string_length_app in H. simpl in H. lia.
    + intros [H|H]; discriminate.
  - intros t Ht Hne. rewrite Ht. destruct t; [congruence|reflexivity].
Qed.

Lemma fullname_spec_witness :
  (fullname eros = NearEarthObject.designation eros <->
   NearEarthObject.name eros = None \/ NearEarthObject.name eros = Some EmptyString) /\
  fullname eros = "433 Eros"%string.
Proof.
  split; [apply (proj1 (fullname_spec eros))|].
  apply (proj2 (fullname_spec eros) "Eros"); [reflexivity|discriminate].
Defined.

(** For a result linked to an NEO, [write_to_json] emits the row with the
    approach's fields at top level and the NEO's fields under ["neo"]. An
    unnamed NEO gives a [null] name, not [""]: the key ["name"] is always
    present, so [content.get("name", "")] never takes its default. *)
Theorem json_row_linked :
  forall (datetime_to_str : datetime -> string) (parse_float : string -> result pyfloat)
         (a : CA) (s : DB) (j : nat) (n : NEO),
    CloseApproach.neo a = Some j -> _neos s !! j = Some n ->
    json_row datetime_to_str parse_float a s
    = (Ok (JObj [("datetime_utc", JStr (datetime_to_str (CloseApproach.time a)));
                 ("distance_au", JFloat (CloseApproach.distance a));
                 ("velocity_km_s", JFloat (CloseApproach.velocity a));
                 ("neo", JObj [("designation", JStr (NearEarthObject.designation n));
                               ("name", match NearEarthObject.name n with
                                        | Some t => JStr t | None => JNull end);
                               ("diameter_km", JFloat (NearEarthObject.diameter n));
                               ("potentially_hazardous",
                                JBool (NearEarthObject.hazardous n))])]), s).
Proof.
  intros dts pf a s j n Hj Hn. unfold json_row, neo_serialize_of, bind, gets.
  rewrite Hj. simpl. rewrite Hn. simpl. unfold NEO_serialize.
  destruct (NearEarthObject.name n); reflexivity.
Qed.

Lemma json_row_linked_witness :
  CloseApproach.neo eros_nan_approach = Some 0 /\
  _neos sample_db !! 0 = Some (add_approaches eros [0]) /\
  fst (json_row (fun _ => "1900-01-01 00:00"%string) (fun _ => Err ValueError)
         eros_nan_approach sample_db)
  = Ok (JObj [("datetime_utc", JStr "1900-01-01 00:00");
              ("distance_au", JFloat NaN); ("velocity_km_s", JFloat NaN);
              ("neo", JObj [("designation", JStr "433"); ("name", JStr "Eros");
                            ("diameter_km", JFloat (Fin (1684 # 100)));
                            ("potentially_hazardous", JBool false)])]).
Proof.
  assert (H1 : CloseApproach.neo eros_nan_approach = Some 0) by reflexivity.
  assert (H2 : _neos sample_db !! 0 = Some (add_approaches eros [0])) by reflexivity.
  split; [exact H1|]. split; [exact H2|].
  rewrite (json_row_linked _ _ eros_nan_approach sample_db 0 _ H1 H2). reflexivity.
Defined.

Lemma json_row_err dts pf a s e :
  fst (json_row dts pf a s) = Err e -> e = AttributeError /\ ~ linked_in s a.
Proof.
  intros H. split.
  - revert H. unfold json_row, neo_serialize_of, bind, gets, raise.
    destruct (CloseApproach.neo a) as [j|]; simpl; [|congruence].
    destruct (_neos s !! j) as [n|]; simpl; [|congruence].
    unfold NEO_serialize. destruct (NearEarthObject.name n); simpl; discriminate.
  - intros (j & n & Hj & Hn). rewrite (json_row_linked dts pf a s j n Hj Hn) in H.
    discriminate.
Qed.

Lemma ro_json_row dts pf a : read_only (json_row dts pf a).
Proof.
  intros s. unfold json_row, neo_serialize_of, bind, gets, raise, ret.
  destruct (CloseApproach.neo a) as [j|]; simpl; [|reflexivity].
  destruct (_neos s !! j) as [n|]; simpl; [|reflexivity].
  unfold NEO_serialize. destruct (NearEarthObject.name n); reflexivity.
Qed.

(** [write_to_json] builds one row per result, in order, when every
    result is linked to an NEO; a single orphan result makes it raise
    [AttributeError], and no other exception can occur. *)
Theorem write_to_json_collection_spec :
  forall (datetime_to_str : datetime -> string) (parse_float : string -> result pyfloat)
         (results : list CA) (s : DB),
    ((forall a, In a results -> linked_in s a) ->
     exists rows, fst (write_to_json_collection datetime_to_str parse_float results s) = Ok rows
                  /\ length rows = length results) /\
    ((exists a, In a results /\ CloseApproach.neo a = None) ->
     fst (write_to_json_collection datetime_to_str parse_float results s) = Err AttributeError).
Proof.
  intros dts pf results s.
  induction results as [|a rest [IHok IHerr]]; simpl.
  - split; [intros _; exists []; split; reflexivity|]. intros (a & [] & _).
  - unfold bind. pose proof (ro_json_row dts pf a s) as Hs.
    destruct (json_row dts pf a s) as [[row|e] s'] eqn:E; simpl in Hs; subst s'.
    + cbv beta. unfold bind.
      split.
      * intros Hl. destruct IHok as (rows & Hrows & Hlen);
          [intros; apply Hl; right; assumption|].
        destruct (write_to_json_collection dts pf rest s) as [r s'] eqn:E'.
        simpl in Hrows. subst r. exists (row :: rows). simpl. split; [reflexivity|].
        by rewrite Hlen.
      * intros (a' & [<-|Hin] & Hnone).
        -- exfalso. assert (Hr : fst (json_row dts pf a s) = Ok row) by (rewrite E; reflexivity).
           unfold json_row, neo_serialize_of, bind, raise in Hr. rewrite Hnone in Hr.
           discriminate.
        -- rewrite (surjective_pairing (write_to_json_collection dts pf rest s)).
           rewrite IHerr by (exists a'; auto). reflexivity.
    + split.
      * intros Hl. exfalso.
        destruct (json_row_err dts pf a s e) as [_ Hn]; [by rewrite E|].
        apply Hn, Hl. left. reflexivity.
      * intros _. simpl. destruct (json_row_err dts pf a s e) as [-> _]; [by rewrite E|].
        reflexivity.
Qed.

Lemma write_to_json_collection_spec_witness :
  (forall a, In a [eros_nan_approach] -> linked_in sample_db a) /\
  exists rows, fst (write_to_json_collection (fun _ => "1900-01-01 00:00"%string)
                      (fun _ => Err ValueError) [eros_nan_approach] sample_db) = Ok rows
               /\ length rows = length [eros_nan_approach].
Proof.
  assert (H : forall a, In a [eros_nan_approach] -> linked_in sample_db a).
  { intros a [<-|[]]. exists 0, (add_approaches eros [0]). split; reflexivity. }
  split; [exact H|].
  apply (proj1 (write_to_json_collection_spec (fun _ => "1900-01-01 00:00"%string)
                  (fun _ => Err ValueError) [eros_nan_approach] sample_db) H).
Defined.

(** [limit] at its edges: a negative bound makes [islice] raise
    [ValueError]; a bound at least as long as the stream returns all of
    it; and limiting an already limited stream with the same bound
    changes nothing. *)
Theorem limit_edges :
  (forall {A} (seq : list A) (n : Z), (n < 0)%Z -> limit seq (Some n) = Err ValueError) /\
  (forall {A} (seq : list A) (n : Z),
     (Z.of_nat (length seq) <= n)%Z -> limit seq (Some n) = Ok seq) /\
  (forall {A} (seq out : list A) (n : option Z),
     limit seq n = Ok out -> limit out n = Ok out).
Proof.
  split; [|split].
  - intros A seq n Hn. unfold limit.
    destruct (Z.eqb_spec n 0) as [->|_]; [lia|].
    destruct (Z.ltb_spec n 0); [reflexivity|lia].
  - intros A seq n Hn. unfold limit.
    destruct (Z.eqb_spec n 0) as [_|_]; [reflexivity|].
    destruct (Z.ltb_spec n 0); [lia|].
    f_equal. apply firstn_all2. lia.
  - intros A seq out [n|]; unfold limit; [|congruence].
    destruct (Z.eqb_spec n 0) as [_|_]; [congruence|].
    destruct (Z.ltb_spec n 0); [discriminate|].
    intros [= <-]. by rewrite firstn_firstn, Nat.min_id.
Qed.

Lemma limit_edges_witness :
  ((-1 < 0)%Z /\ limit [1; 2] (Some (-1)%Z) = Err ValueError) /\
  ((Z.of_nat (length [1; 2]) <= 5)%Z /\ limit [1; 2] (Some 5%Z) = Ok [1; 2]) /\
  (limit [1; 2; 3] (Some 2%Z) = Ok [1; 2] /\ limit [1; 2] (Some 2%Z) = Ok [1; 2]).
Proof.
  split; [|split].
  - split; [lia|]. apply (proj1 limit_edges). lia.
  - split; [simpl; lia|]. apply (proj1 (proj2 limit_edges)). simpl; lia.
  - split; [reflexivity|]. apply (proj2 (proj2 limit_edges) _ [1; 2; 3]). reflexivity.
Defined.

Lemma targets_in m j k0 rest k :
  In k (targets m j k0 rest) ->
  k0 <= k /\ exists a, rest !! (k - k0) = Some a /\ m !! CloseApproach.designation a = Some j.
Proof.
  revert k0. induction rest as [|a rest IH]; intros k0; simpl; [intros []|].
  intros Hk. apply in_app_or in Hk as [Hk|Hk].
  - case_decide as Hm; [|destruct Hk].
    destruct Hk as [<-|[]]. split; [lia|]. exists a. by rewrite Nat.sub_diag.
  - destruct (IH (S k0) Hk) as (Hle & a' & Ha' & Hm). split; [lia|].
    exists a'. replace (k - k0) with (S (k - S k0)) by lia. split; assumption.
Qed.

Lemma targets_sorted m j k0 rest : StronglySorted lt (targets m j k0 rest).
Proof.
  revert k0. induction rest as [|a rest IH]; intros k0; simpl; [constructor|].
  case_decide; simpl; [|apply IH].
  constructor; [apply IH|]. apply List.Forall_forall. intros k Hk.
  apply targets_in in Hk as [Hle _]. lia.
Qed.

(** The back-links [__init__] builds: for an NEO that arrived with no
    approaches, its [approaches] list after construction holds positions
    of the approach collection in increasing order (stored order, no
    repeats), and each of them is an approach of that NEO's designation,
    now linked to that NEO. *)
Theorem init_backlinks :
  forall (neos : list NEO) (apps : list CA) (j : nat) (n : NEO),
    neos !! j = Some n -> NearEarthObject.approaches n = [] ->
    exists n', _neos (NEODatabase.init neos apps) !! j = Some n' /\
      NearEarthObject.designation n' = NearEarthObject.designation n /\
      StronglySorted lt (NearEarthObject.approaches n') /\
      forall k, In k (NearEarthObject.approaches n') ->
        exists a, apps !! k = Some a /\
          CloseApproach.designation a = NearEarthObject.designation n /\
          _approaches (NEODatabase.init neos apps) !! k = Some (NEODatabase.set_neo j a).
Proof.
  intros neos apps j n Hj Hnil.
  rewrite init_neos, Hj. simpl. eexists. split; [reflexivity|].
  unfold add_approaches; simpl. rewrite Hnil; simpl.
  split; [reflexivity|]. split; [apply targets_sorted|].
  intros k Hk. destruct (targets_in _ _ _ _ _ Hk) as (_ & a & Ha & Hm).
  rewrite Nat.sub_0_r in Ha. exists a. split; [exact Ha|].
  assert (Hm' := Hm). rewrite designations_with_indices_lookup in Hm'.
  apply last_index_some in Hm' as (n0 & Hn0 & Hd & _).
  rewrite Hj in Hn0. injection Hn0 as <-. split; [by rewrite Hd|].
  rewrite init_approaches, Ha. simpl. unfold linked. by rewrite Hm.
Qed.

Lemma init_backlinks_witness :
  [eros] !! 0 = Some eros /\ NearEarthObject.approaches eros = [] /\
  exists n', _neos (NEODatabase.init [eros] [eros_1900]) !! 0 = Some n' /\
    NearEarthObject.designation n' = NearEarthObject.designation eros /\
    StronglySorted lt (NearEarthObject.approaches n') /\
    forall k, In k (NearEarthObject.approaches n') ->
      exists a, [eros_1900] !! k = Some a /\
        CloseApproach.designation a = NearEarthObject.designation eros /\
        _approaches (NEODatabase.init [eros] [eros_1900]) !! k
        = Some (NEODatabase.set_neo 0 a).
Proof.
  split; [reflexivity|]. split; [reflexivity|].
  apply (init_backlinks [eros] [eros_1900] 0 eros); reflexivity.
Defined.
